(** * AgentVM example agent (example/vercel_agent.py)

    A shallow embedding of the Python script that boots the VM bridge as a
    child process, talks to it in newline-delimited JSON, and drives a
    bounded tool-calling loop against a chat-completion endpoint.

    Layout: Python text and values, the [json] codec as CPython implements
    it, the world the script runs in (child processes, the endpoint, the
    environment) with a state-and-exception monad, the class
    [AgentVMClient], the function [run_agent], and then the properties. *)

From Stdlib Require Import List NArith ZArith Lia Bool String Ascii DecimalString.
Import ListNotations.

Set Implicit Arguments.
Set Warnings "-register-all".

(** ** Python text

    A [str] is a sequence of code points.  Lone surrogates are legal members
    of a Python [str], so nothing below excludes them. *)

Definition pystr := list N.

Definition lit (s : string) : pystr :=
  map N_of_ascii (list_ascii_of_string s).

(** Sample protocol lines are written with apostrophes where the wire has
    double quotes; [wire] puts the double quotes back. *)
Definition wire (s : string) : pystr :=
  map (fun c => if N.eqb c 39 then 34%N else c) (lit s).

Definition is_str (s : pystr) : Prop := Forall (fun c => (c < 1114112)%N) s.

Fixpoint str_eqb (a b : pystr) : bool :=
  match a, b with
  | [], [] => true
  | x :: a', y :: b' => N.eqb x y && str_eqb a' b'
  | _, _ => false
  end.

Definition NL : N := 10.
Definition QUOTE : N := 34.
Definition BACKSLASH : N := 92.

(** [str.join]. *)
Fixpoint join (sep : pystr) (parts : list pystr) : pystr :=
  match parts with
  | [] => []
  | [p] => p
  | p :: rest => p ++ sep ++ join sep rest
  end.

(** [str.isspace] on one code point, the table [str.strip()] uses. *)
Definition is_space (c : N) : bool :=
  ((9 <=? c) && (c <=? 13) || (28 <=? c) && (c <=? 32)
   || (c =? 133) || (c =? 160) || (c =? 5760)
   || (8192 <=? c) && (c <=? 8202)
   || (c =? 8232) || (c =? 8233) || (c =? 8239) || (c =? 8287)
   || (c =? 12288))%N.

Fixpoint lstrip (s : pystr) : pystr :=
  match s with
  | c :: t => if is_space c then lstrip t else s
  | [] => []
  end.

Definition strip (s : pystr) : pystr := rev (lstrip (rev (lstrip s))).

(** [str(n)] and [repr(n)] of an [int]. *)
Definition int_str (z : Z) : pystr := lit (NilZero.string_of_int (Z.to_int z)).

(** ** Python values

    The values [json.loads] can build.  A [dict] keeps insertion order and
    has string keys.  A [float] is kept as the text handed to [float()]
    ([nan], [inf] and [-inf] for the three constants): the script never
    computes with one. *)

Inductive pyval : Type :=
| VNone
| VBool (b : bool)
| VInt (z : Z)
| VFloat (text : pystr)
| VStr (s : pystr)
| VList (l : list pyval)
| VDict (d : list (pystr * pyval)).

Definition pydict := list (pystr * pyval).

Fixpoint dict_get (d : pydict) (k : pystr) : option pyval :=
  match d with
  | [] => None
  | (k', v) :: d' => if str_eqb k' k then Some v else dict_get d' k
  end.

(** [d[k] = v]: an existing key keeps its place. *)
Fixpoint dict_set (d : pydict) (k : pystr) (v : pyval) : pydict :=
  match d with
  | [] => [(k, v)]
  | (k', v') :: d' =>
      if str_eqb k' k then (k', v) :: d' else (k', v') :: dict_set d' k v
  end.

(** What CPython contributes and this development does not compute:
    whether a float is zero, [repr] of a float, [repr] of a [str], and
    which texts the codec of [sys.stdout] can encode (it depends on the
    locale and on [PYTHONIOENCODING]). *)
Class Builtins : Type := {
  float_is_zero : pystr -> bool;
  float_repr : pystr -> pystr;
  str_repr : pystr -> pystr;
  stdout_encodes : pystr -> bool
}.

(** Exceptions.  All but [KeyboardInterrupt] derive from [Exception]. *)
Inductive exn : Type :=
| RuntimeError (msg : pystr)
| JSONDecodeError
| RecursionError
| KeyError (key : pystr)
| TypeError
| AttributeError
| UnicodeEncodeError
| IndexError
| OSError (what : pystr)
| TimeoutExpired
| APIError (what : pystr)
| KeyboardInterrupt.

Definition is_Exception (e : exn) : bool :=
  match e with
  | KeyboardInterrupt => false
  | _ => true
  end.

Inductive outcome (A : Type) : Type :=
| Ret (a : A)
| Raise (e : exn).
Arguments Raise {A} e.

Section Values.
Context {B : Builtins}.

(** [repr(v)]. *)
Fixpoint py_repr (v : pyval) : pystr :=
  match v with
  | VNone => lit "None"
  | VBool true => lit "True"
  | VBool false => lit "False"
  | VInt z => int_str z
  | VFloat x => float_repr x
  | VStr s => str_repr s
  | VList l => lit "[" ++ join (lit ", ") (map py_repr l) ++ lit "]"
  | VDict d =>
      lit "{"
      ++ join (lit ", ")
           (map (fun kv => str_repr (fst kv) ++ lit ": " ++ py_repr (snd kv)) d)
      ++ lit "}"
  end.

(** [str(v)], what an f-string field [{v}] renders. *)
Definition py_str (v : pyval) : pystr :=
  match v with
  | VStr s => s
  | _ => py_repr v
  end.

(** [bool(v)]. *)
Definition truthy (v : pyval) : bool :=
  match v with
  | VNone => false
  | VBool b => b
  | VInt z => negb (Z.eqb z 0)
  | VFloat x => negb (float_is_zero x)
  | VStr s => match s with [] => false | _ => true end
  | VList l => match l with [] => false | _ => true end
  | VDict d => match d with [] => false | _ => true end
  end.

(** [v != 0]. *)
Definition ne_zero (v : pyval) : bool :=
  match v with
  | VInt z => negb (Z.eqb z 0)
  | VBool b => b
  | VFloat x => negb (float_is_zero x)
  | _ => true
  end.

(** [v == s] for a [str] literal [s]. *)
Definition eq_str (v : pyval) (s : pystr) : bool :=
  match v with
  | VStr t => str_eqb t s
  | _ => false
  end.

(** [v[k]] for a [str] key. *)
Definition getitem (v : pyval) (k : pystr) : outcome pyval :=
  match v with
  | VDict d =>
      match dict_get d k with
      | Some x => Ret x
      | None => Raise (KeyError k)
      end
  | _ => Raise TypeError
  end.

(** [v.get(k)]: only a [dict] has the method. *)
Definition get (v : pyval) (k : pystr) : outcome pyval :=
  match v with
  | VDict d =>
      match dict_get d k with
      | Some x => Ret x
      | None => Ret VNone
      end
  | _ => Raise AttributeError
  end.

End Values.

(** ** [json.dumps]

    The encoder with its defaults: [ensure_ascii=True], separators
    [", "] and [": "], [allow_nan=True]. *)

Definition hex_digit (n : N) : N :=
  if (n <? 10)%N then (48 + n)%N else (87 + n)%N.

(** ['{0:04x}'.format(n)] for [n < 0x10000]. *)
Definition hex4 (n : N) : pystr :=
  [hex_digit (n / 4096 mod 16); hex_digit (n / 256 mod 16);
   hex_digit (n / 16 mod 16); hex_digit (n mod 16)]%N.

Definition u_escape (n : N) : pystr := BACKSLASH :: 117%N :: hex4 n.

(** The replacement [encode_basestring_ascii] makes for one character:
    [ESCAPE_DCT] first, printable ASCII unchanged, [\uXXXX] below
    0x10000 and a surrogate pair above. *)
Definition escape_char (c : N) : pystr :=
  if (c =? 92)%N then [BACKSLASH; BACKSLASH]
  else if (c =? 34)%N then [BACKSLASH; QUOTE]
  else if (c =? 8)%N then [BACKSLASH; 98%N]
  else if (c =? 12)%N then [BACKSLASH; 102%N]
  else if (c =? 10)%N then [BACKSLASH; 110%N]
  else if (c =? 13)%N then [BACKSLASH; 114%N]
  else if (c =? 9)%N then [BACKSLASH; 116%N]
  else if ((32 <=? c) && (c <=? 126))%N then [c]
  else if (c <? 65536)%N then u_escape c
  else
    let n := (c - 65536)%N in
    u_escape (N.lor 55296 (N.land (N.shiftr n 10) 1023))
    ++ u_escape (N.lor 56320 (N.land n 1023)).

Fixpoint escape (s : pystr) : pystr :=
  match s with
  | [] => []
  | c :: t => escape_char c ++ escape t
  end.

Definition encode_basestring_ascii (s : pystr) : pystr :=
  QUOTE :: escape s ++ [QUOTE].

Section Dumps.
Context {B : Builtins}.

(** [floatstr]: [float.__repr__] except for the three non-finite values. *)
Definition float_json (x : pystr) : pystr :=
  let r := float_repr x in
  if str_eqb r (lit "nan") then lit "NaN"
  else if str_eqb r (lit "inf") then lit "Infinity"
  else if str_eqb r (lit "-inf") then lit "-Infinity"
  else r.

Fixpoint json_dumps (v : pyval) : pystr :=
  match v with
  | VNone => lit "null"
  | VBool true => lit "true"
  | VBool false => lit "false"
  | VInt z => int_str z
  | VFloat x => float_json x
  | VStr s => encode_basestring_ascii s
  | VList l => lit "[" ++ join (lit ", ") (map json_dumps l) ++ lit "]"
  | VDict d =>
      lit "{"
      ++ join (lit ", ")
           (map (fun kv =>
                   encode_basestring_ascii (fst kv) ++ lit ": "
                   ++ json_dumps (snd kv)) d)
      ++ lit "}"
  end.

End Dumps.

(** ** [json.loads]

    The decoder as the C accelerator ([c_scanstring], [c_make_scanner])
    runs it, in strict mode.  Functions take the text that is left and
    return what they read with the text after it.  [JSONDecodeError]
    carries no message or position here. *)

Definition is_ws (c : N) : bool :=
  ((c =? 32) || (c =? 9) || (c =? 10) || (c =? 13))%N.

Fixpoint skip_ws (s : pystr) : pystr :=
  match s with
  | c :: t => if is_ws c then skip_ws t else s
  | [] => []
  end.

Definition is_digit (c : N) : bool := ((48 <=? c) && (c <=? 57))%N.

Definition hex_val (c : N) : option N :=
  if ((48 <=? c) && (c <=? 57))%N then Some (c - 48)%N
  else if ((97 <=? c) && (c <=? 102))%N then Some (c - 87)%N
  else if ((65 <=? c) && (c <=? 70))%N then Some (c - 55)%N
  else None.

(** The four hex digits of a [\uXXXX] escape. *)
Definition decode_u4 (a b c d : N) : option N :=
  match hex_val a, hex_val b, hex_val c, hex_val d with
  | Some x, Some y, Some z, Some w => Some (((x * 16 + y) * 16 + z) * 16 + w)%N
  | _, _, _, _ => None
  end.

Definition is_high_surrogate (c : N) : bool := ((55296 <=? c) && (c <=? 56319))%N.
Definition is_low_surrogate (c : N) : bool := ((56320 <=? c) && (c <=? 57343))%N.

Definition join_surrogates (hi lo : N) : N :=
  (65536 + N.lor (N.shiftl (hi - 55296) 10) (lo - 56320))%N.

(** The [BACKSLASH] table of the decoder. *)
Definition unescape (e : N) : option N :=
  if (e =? 34)%N then Some 34%N
  else if (e =? 92)%N then Some 92%N
  else if (e =? 47)%N then Some 47%N
  else if (e =? 98)%N then Some 8%N
  else if (e =? 102)%N then Some 12%N
  else if (e =? 110)%N then Some 10%N
  else if (e =? 114)%N then Some 13%N
  else if (e =? 116)%N then Some 9%N
  else None.

Definition push (c : N) (r : option (pystr * pystr)) : option (pystr * pystr) :=
  match r with
  | Some (t, rest) => Some (c :: t, rest)
  | None => None
  end.

(** [scanstring(s, end)], from just after the opening quote: the decoded
    text and what follows the closing quote, or [None] for a
    [JSONDecodeError].  A [\uXXXX] naming a high surrogate is joined with a
    directly following [\uXXXX] naming a low one. *)
Fixpoint scanstring (s : pystr) : option (pystr * pystr) :=
  match s with
  | [] => None
  | c :: s1 =>
      if (c =? 34)%N then Some ([], s1)
      else if (c =? 92)%N then
        match s1 with
        | [] => None
        | e :: s2 =>
            if (e =? 117)%N then
              match s2 with
              | h1 :: h2 :: h3 :: h4 :: s3 =>
                  match decode_u4 h1 h2 h3 h4 with
                  | None => None
                  | Some uni =>
                      match s3 with
                      | b :: u :: l1 :: l2 :: l3 :: l4 :: s4 =>
                          if is_high_surrogate uni && (b =? 92)%N && (u =? 117)%N then
                            match decode_u4 l1 l2 l3 l4 with
                            | None => None
                            | Some uni2 =>
                                if is_low_surrogate uni2
                                then push (join_surrogates uni uni2) (scanstring s4)
                                else push uni (scanstring s3)
                            end
                          else push uni (scanstring s3)
                      | _ => push uni (scanstring s3)
                      end
                  end
              | _ => None
              end
            else
              match unescape e with
              | Some x => push x (scanstring s2)
              | None => None
              end
        end
      else if (c <? 32)%N then None
      else push c (scanstring s1)
  end.

Fixpoint digits (s : pystr) : pystr * pystr :=
  match s with
  | c :: t =>
      if is_digit c then let (d, r) := digits t in (c :: d, r) else ([], s)
  | [] => ([], [])
  end.

Definition digits_value (d : pystr) : Z :=
  fold_left (fun acc c => (10 * acc + (Z.of_N c - 48))%Z) d 0%Z.

(** [_match_number]: an integer part, then a fraction and an exponent
    when they are complete; a number with neither is an [int]. *)
Definition match_number (s : pystr) : option (pyval * pystr) :=
  let (sign, s1) :=
    match s with
    | c :: t => if (c =? 45)%N then ([c], t) else ([], s)
    | [] => ([], s)
    end in
  match s1 with
  | [] => None
  | c :: t =>
      let int_part :=
        if (c =? 48)%N then Some ([c], t)
        else if ((49 <=? c) && (c <=? 57))%N
             then let (d, r) := digits t in Some (c :: d, r)
             else None in
      match int_part with
      | None => None
      | Some (ip, r1) =>
          let (frac, r2) :=
            match r1 with
            | p :: d :: t2 =>
                if (p =? 46)%N && is_digit d
                then let (ds, r) := digits t2 in (p :: d :: ds, r)
                else ([], r1)
            | _ => ([], r1)
            end in
          let (exp, r3) :=
            match r2 with
            | e :: t3 =>
                if ((e =? 101) || (e =? 69))%N then
                  let (sg, t4) :=
                    match t3 with
                    | g :: t' => if ((g =? 43) || (g =? 45))%N then ([g], t') else ([], t3)
                    | [] => ([], t3)
                    end in
                  match digits t4 with
                  | ([], _) => ([], r2)
                  | (ds, r) => (e :: sg ++ ds, r)
                  end
                else ([], r2)
            | [] => ([], r2)
            end in
          match frac, exp with
          | [], [] =>
              let n := digits_value ip in
              Some (VInt (match sign with [] => n | _ => (- n)%Z end), r3)
          | _, _ => Some (VFloat (sign ++ ip ++ frac ++ exp), r3)
          end
      end
  end.

Fixpoint strip_prefix (p s : pystr) : option pystr :=
  match p, s with
  | [], _ => Some s
  | x :: p', y :: s' => if (x =? y)%N then strip_prefix p' s' else None
  | _ :: _, [] => None
  end.

Inductive scanned (A : Type) : Type :=
| Scanned (a : A) (rest : pystr)
| Malformed
| Exhausted.
Arguments Malformed {A}.
Arguments Exhausted {A}.

(** [scan_once], [JSONObject] and [JSONArray].  The recursion follows the
    nesting of the document; [fuel] bounds it, and one more than twice the
    length of the text is always enough ([scan_once_fuel] below). *)
Fixpoint scan_once (fuel : nat) (s : pystr) {struct fuel} : scanned pyval :=
  match fuel with
  | O => Exhausted
  | S fuel =>
      match s with
      | [] => Malformed
      | c :: t =>
          if (c =? 34)%N then
            match scanstring t with
            | Some (x, r) => Scanned (VStr x) r
            | None => Malformed
            end
          else if (c =? 123)%N then
            match skip_ws t with
            | c' :: r =>
                if (c' =? 125)%N then Scanned (VDict []) r
                else scan_members fuel (c' :: r) []
            | [] => Malformed
            end
          else if (c =? 91)%N then
            match skip_ws t with
            | c' :: r =>
                if (c' =? 93)%N then Scanned (VList []) r
                else scan_items fuel (c' :: r) []
            | [] => Malformed
            end
          else
            match strip_prefix (lit "null") s with
            | Some r => Scanned VNone r
            | None =>
            match strip_prefix (lit "true") s with
            | Some r => Scanned (VBool true) r
            | None =>
            match strip_prefix (lit "false") s with
            | Some r => Scanned (VBool false) r
            | None =>
            match strip_prefix (lit "NaN") s with
            | Some r => Scanned (VFloat (lit "nan")) r
            | None =>
            match strip_prefix (lit "Infinity") s with
            | Some r => Scanned (VFloat (lit "inf")) r
            | None =>
            match strip_prefix (lit "-Infinity") s with
            | Some r => Scanned (VFloat (lit "-inf")) r
            | None =>
            match match_number s with
            | Some (v, r) => Scanned v r
            | None => Malformed
            end end end end end end end
      end
  end

(** The members of an object, from its first key on; [acc] is the [dict]
    built so far. *)
with scan_members (fuel : nat) (s : pystr) (acc : pydict) {struct fuel}
  : scanned pyval :=
  match fuel with
  | O => Exhausted
  | S fuel =>
      match s with
      | [] => Malformed
      | q :: t =>
          if (q =? 34)%N then
            match scanstring t with
            | None => Malformed
            | Some (key, r) =>
                match skip_ws r with
                | [] => Malformed
                | colon :: r1 =>
                    if (colon =? 58)%N then
                      match scan_once fuel (skip_ws r1) with
                      | Scanned v r2 =>
                          let acc := dict_set acc key v in
                          match skip_ws r2 with
                          | [] => Malformed
                          | d :: r3 =>
                              if (d =? 125)%N then Scanned (VDict acc) r3
                              else if (d =? 44)%N
                                   then scan_members fuel (skip_ws r3) acc
                                   else Malformed
                          end
                      | Malformed => Malformed
                      | Exhausted => Exhausted
                      end
                    else Malformed
                end
            end
          else Malformed
      end
  end

(** The items of an array, from its first value on; [acc] holds the items
    read so far, last first. *)
with scan_items (fuel : nat) (s : pystr) (acc : list pyval) {struct fuel}
  : scanned pyval :=
  match fuel with
  | O => Exhausted
  | S fuel =>
      match scan_once fuel s with
      | Scanned v r =>
          match skip_ws r with
          | [] => Malformed
          | d :: r1 =>
              if (d =? 93)%N then Scanned (VList (rev (v :: acc))) r1
              else if (d =? 44)%N
                   then scan_items fuel (skip_ws r1) (v :: acc)
                   else Malformed
          end
      | Malformed => Malformed
      | Exhausted => Exhausted
      end
  end.

(** [json.loads(s)] for a [str]: no byte-order mark, one value between
    optional whitespace, nothing after it. *)
Definition json_loads (s : pystr) : outcome pyval :=
  match s with
  | 65279%N :: _ => Raise JSONDecodeError
  | _ =>
      match scan_once (S (2 * List.length s)) (skip_ws s) with
      | Scanned v r =>
          match skip_ws r with
          | [] => Ret v
          | _ :: _ => Raise JSONDecodeError
          end
      | Malformed => Raise JSONDecodeError
      | Exhausted => Raise RecursionError
      end
  end.

(** ** The world the script runs in

    Everything outside the script is a script of its own: what each child
    process prints and how its pipe and its exit behave, what the
    completion endpoint answers, the one environment variable.  The script's
    observable actions are collected in [trace], oldest first. *)

(** [ChatCompletionMessageToolCall]: [id], [function.name],
    [function.arguments]. *)
Record tool_call : Type := {
  call_id : pystr;
  fn_name : pystr;
  fn_arguments : pystr
}.

(** [ChatCompletionMessage]. *)
Record chat_message : Type := {
  content : option pystr;
  tool_calls : option (list tool_call)
}.

(** [ChatCompletion]: only [choices[i].message] is used. *)
Record completion : Type := { choices : list chat_message }.

(** An entry of the [messages] list. *)
Inductive message : Type :=
| User (text : pystr)
| Assistant (m : chat_message)
| Tool (tool_call_id : pystr) (name : pystr) (body : pyval).

(** A child process: the results of its successive [stdout.readline()]
    calls (end of file once they are used up), how successive writes to its
    [stdin] end ([None]: accepted; accepted once used up), and how
    [wait(timeout=2)] ends. *)
Record child : Type := {
  stdout : list (exn + pystr);
  stdin : list (option exn);
  exits : option exn
}.

Inductive event : Type :=
| Popen (argv : list pystr)
| Write (line : pystr) (err : option exn)
| Wait (err : option exn)
| Kill
| Create (messages : list message)
| Print (text : pystr)
| PrintErr (text : pystr)
| PrintAgentError (e : exn).

Record AgentVMClient : Type := {
  bridge_path : pystr;
  process : option child
}.

Record world : Type := {
  vm : AgentVMClient;
  script_dir : pystr;
  children : list (exn + child);
  OPENAI_API_KEY : option pystr;
  endpoint : list (exn + completion);
  trace : list event
}.

Definition with_vm (c : AgentVMClient) (w : world) : world :=
  {| vm := c; script_dir := script_dir w; children := children w;
     OPENAI_API_KEY := OPENAI_API_KEY w; endpoint := endpoint w;
     trace := trace w |}.

Definition with_process (p : option child) (w : world) : world :=
  with_vm {| bridge_path := bridge_path (vm w); process := p |} w.

Definition with_children (l : list (exn + child)) (w : world) : world :=
  {| vm := vm w; script_dir := script_dir w; children := l;
     OPENAI_API_KEY := OPENAI_API_KEY w; endpoint := endpoint w;
     trace := trace w |}.

Definition with_endpoint (l : list (exn + completion)) (w : world) : world :=
  {| vm := vm w; script_dir := script_dir w; children := children w;
     OPENAI_API_KEY := OPENAI_API_KEY w; endpoint := l;
     trace := trace w |}.

Definition logged (e : event) (w : world) : world :=
  {| vm := vm w; script_dir := script_dir w; children := children w;
     OPENAI_API_KEY := OPENAI_API_KEY w; endpoint := endpoint w;
     trace := trace w ++ [e] |}.

(** *** State and exceptions *)

Definition M (A : Type) : Type := world -> outcome A * world.

Definition ret {A} (a : A) : M A := fun w => (Ret a, w).

Definition raise {A} (e : exn) : M A := fun w => (Raise e, w).

Definition bind {A B} (m : M A) (k : A -> M B) : M B :=
  fun w =>
    match m w with
    | (Ret a, w') => k a w'
    | (Raise e, w') => (Raise e, w')
    end.

Definition lift {A} (o : outcome A) : M A := fun w => (o, w).

Declare Scope py_scope.
Delimit Scope py_scope with py.
Notation "x <- m ;; k" := (bind m (fun x => k))
  (at level 61, m at next level, right associativity) : py_scope.
Notation "m ;; k" := (bind m (fun _ => k))
  (at level 61, right associativity) : py_scope.
Local Open Scope py_scope.

(** [try: m  except: h] (a bare [except] catches everything). *)
Definition try_except_all {A} (m : M A) (h : M A) : M A :=
  fun w =>
    match m w with
    | (Ret a, w') => (Ret a, w')
    | (Raise _, w') => h w'
    end.

(** [try: m  except Exception as e: h e]. *)
Definition try_except {A} (m : M A) (h : exn -> M A) : M A :=
  fun w =>
    match m w with
    | (Ret a, w') => (Ret a, w')
    | (Raise e, w') => if is_Exception e then h e w' else (Raise e, w')
    end.

(** [try: m  finally: f]. *)
Definition finally {A} (m : M A) (f : M unit) : M A :=
  fun w =>
    match m w with
    | (r, w') =>
        match f w' with
        | (Ret _, w'') => (r, w'')
        | (Raise e, w'') => (Raise e, w'')
        end
    end.

Definition emit (e : event) : M unit := fun w => (Ret tt, logged e w).

(** [print(text)] on [sys.stdout].  The stream encodes the text before it
    writes any of it, and raises [UnicodeEncodeError] on a text its codec
    cannot encode (a lone surrogate under UTF-8, any character outside the
    code page under a legacy one); nothing of the text is shown then.
    ASCII text is encoded by every codec, which is why the literals the
    script prints and the output of [json.dumps] are shown with [emit];
    [sys.stderr] replaces what it cannot encode ([backslashreplace]) and
    never raises for it. *)
Definition is_ascii (s : pystr) : bool := forallb (fun c => (c <? 128)%N) s.

Definition encodable {B : Builtins} (text : pystr) : bool :=
  is_ascii text || stdout_encodes text.

Definition print_stdout {B : Builtins} (text : pystr) : M unit :=
  if encodable text then emit (Print text) else raise UnicodeEncodeError.

(** *** The calls that leave the script *)

Definition self : M AgentVMClient := fun w => (Ret (vm w), w).

Definition set_process (p : option child) : M unit :=
  fun w => (Ret tt, with_process p w).

(** [subprocess.Popen(argv, stdin=PIPE, stdout=PIPE, stderr=sys.stderr,
    text=True, bufsize=1)]. *)
Definition spawn (argv : list pystr) : M child :=
  fun w =>
    let w := logged (Popen argv) w in
    match children w with
    | [] => (Raise (OSError (lit "exec")), w)
    | inl e :: rest => (Raise e, with_children rest w)
    | inr c :: rest => (Ret c, with_children rest w)
    end.

(** [self.process.stdout.readline()]: the empty text at end of file. *)
Definition readline : M pystr :=
  fun w =>
    match process (vm w) with
    | None => (Raise AttributeError, w)
    | Some c =>
        match stdout c with
        | [] => (Ret [], w)
        | inl e :: rest =>
            (Raise e,
             with_process
               (Some {| stdout := rest; stdin := stdin c; exits := exits c |}) w)
        | inr line :: rest =>
            (Ret line,
             with_process
               (Some {| stdout := rest; stdin := stdin c; exits := exits c |}) w)
        end
    end.

(** [self.process.stdin.write(text)] followed by [self.process.stdin.flush()]. *)
Definition write (text : pystr) : M unit :=
  fun w =>
    match process (vm w) with
    | None => (Raise AttributeError, w)
    | Some c =>
        match stdin c with
        | [] => (Ret tt, logged (Write text None) w)
        | None :: rest =>
            (Ret tt,
             logged (Write text None)
               (with_process
                  (Some {| stdout := stdout c; stdin := rest; exits := exits c |}) w))
        | Some e :: rest =>
            (Raise e,
             logged (Write text (Some e))
               (with_process
                  (Some {| stdout := stdout c; stdin := rest; exits := exits c |}) w))
        end
    end.

(** [self.process.wait(timeout=2)]. *)
Definition wait : M unit :=
  fun w =>
    match process (vm w) with
    | None => (Raise AttributeError, w)
    | Some c =>
        match exits c with
        | None => (Ret tt, logged (Wait None) w)
        | Some e => (Raise e, logged (Wait (Some e)) w)
        end
    end.

(** [self.process.kill()]. *)
Definition kill : M unit :=
  fun w =>
    match process (vm w) with
    | None => (Raise AttributeError, w)
    | Some _ => (Ret tt, logged Kill w)
    end.

(** [client.chat.completions.create(model="gpt-4-turbo", messages=messages,
    tools=tools, tool_choice="auto")]; the model, the tool schema and the
    tool choice are the same constants in every call. *)
Definition create (messages : list message) : M completion :=
  fun w =>
    let w := logged (Create messages) w in
    match endpoint w with
    | [] => (Raise (APIError (lit "connection")), w)
    | inl e :: rest => (Raise e, with_endpoint rest w)
    | inr c :: rest => (Ret c, with_endpoint rest w)
    end.

(** [os.environ.get("OPENAI_API_KEY")]. *)
Definition getenv_api_key : M (option pystr) :=
  fun w => (Ret (OPENAI_API_KEY w), w).

(** [os.path.join(d, name)] for a relative [name]. *)
Definition path_join (d name : pystr) : pystr :=
  match d with
  | [] => name
  | _ => if (last d 0 =? 47)%N then d ++ name else d ++ 47%N :: name
  end.

(** ** class AgentVMClient *)

Section Agent.
Context {B : Builtins}.

(** [__init__]: the bridge script sits beside this file. *)
Definition init : M unit :=
  fun w =>
    (Ret tt,
     with_vm {| bridge_path := path_join (script_dir w) (lit "agent_bridge.js");
                process := None |} w).

(** The [while True] loop of [start].  Every turn takes one entry of the
    child's output, so one more than their number is fuel enough
    ([wait_ready_fuel] below). *)
Fixpoint wait_ready (fuel : nat) : M unit :=
  match fuel with
  | O => raise RecursionError
  | S fuel =>
      line <- readline ;;
      match line with
      | [] => raise (RuntimeError (lit "VM process exited unexpectedly"))
      | _ =>
          if str_eqb (strip line) (lit "READY") then ret tt
          else wait_ready fuel
      end
  end.

Definition start : M unit :=
  emit (PrintErr (lit "Booting VM...")) ;;
  me <- self ;;
  p <- spawn [lit "node"; bridge_path me] ;;
  set_process (Some p) ;;
  wait_ready (S (List.length (stdout p))) ;;
  emit (PrintErr (lit "VM Ready.")).

Definition exec_request (command : pyval) : pystr :=
  json_dumps (VDict [(lit "cmd", VStr (lit "exec")); (lit "command", command)]).

Definition exec (command : pyval) : M pyval :=
  me <- self ;;
  match process me with
  | None => raise (RuntimeError (lit "VM not started"))
  | Some _ =>
      let req := exec_request command in
      write (req ++ [NL]) ;;
      resp_line <- readline ;;
      match resp_line with
      | [] => raise (RuntimeError (lit "VM closed connection"))
      | _ =>
          resp <- lift (json_loads resp_line) ;;
          status <- lift (get resp (lit "status")) ;;
          if eq_str status (lit "ok") then lift (getitem resp (lit "result"))
          else
            err <- lift (get resp (lit "error")) ;;
            raise (RuntimeError (lit "VM Error: " ++ py_str err))
      end
  end.

Definition stop_request : pystr :=
  json_dumps (VDict [(lit "cmd", VStr (lit "stop"))]).

Definition stop : M unit :=
  me <- self ;;
  match process me with
  | None => ret tt
  | Some _ =>
      try_except_all (write (stop_request ++ [NL]) ;; wait) kill ;;
      set_process None
  end.

(** ** run_agent *)

Definition and_then {X Y} (o : outcome X) (k : X -> outcome Y) : outcome Y :=
  match o with
  | Ret x => k x
  | Raise e => Raise e
  end.

(** The text of the tool message for a command result (lines 133-136). *)
Definition tool_content (cmd_res : pyval) : outcome pyval :=
  and_then (getitem cmd_res (lit "exitCode")) (fun code =>
  if ne_zero code then
    and_then (getitem cmd_res (lit "exitCode")) (fun code =>
    and_then (getitem cmd_res (lit "stderr")) (fun err =>
    and_then (if truthy err then Ret err
              else getitem cmd_res (lit "stdout")) (fun shown =>
    Ret (VStr (lit "Error (Exit " ++ py_str code ++ lit "): "
               ++ py_str shown)))))
  else getitem cmd_res (lit "stdout")).

Definition TOOL_NAME : pystr := lit "execute_shell_command".

(** The body of [for tool_call in message.tool_calls]. *)
Definition call_tool (tc : tool_call) (messages : list message)
  : M (list message) :=
  if str_eqb (fn_name tc) TOOL_NAME then
    args <- lift (json_loads (fn_arguments tc)) ;;
    command <- lift (getitem args (lit "command")) ;;
    emit (PrintErr (lit "[Tool] Executing: " ++ py_str command)) ;;
    cmd_res <- exec command ;;
    body <- lift (tool_content cmd_res) ;;
    ret (messages ++ [Tool (call_id tc) TOOL_NAME body])
  else ret messages.

Fixpoint call_tools (tcs : list tool_call) (messages : list message)
  : M (list message) :=
  match tcs with
  | [] => ret messages
  | tc :: rest =>
      messages <- call_tool tc messages ;;
      call_tools rest messages
  end.

Definition MAX_STEPS : nat := 5.

(** [while step < MAX_STEPS], with [budget = MAX_STEPS - step]; returns
    the conversation it leaves. *)
Fixpoint agent_steps (budget : nat) (messages : list message)
  : M (list message) :=
  match budget with
  | O => ret messages
  | S budget =>
      response <- create messages ;;
      match choices response with
      | [] => raise IndexError
      | message :: _ =>
          let messages := messages ++ [Assistant message] in
          match tool_calls message with
          | None | Some [] =>
              emit (Print (NL :: lit "Agent Response:")) ;;
              print_stdout (match content message with
                            | Some text => text
                            | None => lit "None"
                            end) ;;
              ret messages
          | Some tcs =>
              messages <- call_tools tcs messages ;;
              agent_steps budget messages
          end
      end
  end.

Definition PROMPT : pystr :=
  lit "Calculate the 10th Fibonacci number using Python and tell me the result.".

Definition simulated : M unit :=
  emit (Print (NL :: lit "[Simulated Agent Interaction]")) ;;
  emit (Print (lit "User: List files in current directory.")) ;;
  res <- exec (VStr (lit "ls -F")) ;;
  emit (Print (lit "Tool Output: " ++ json_dumps res)).

(** The [try] block. *)
Definition attempt : M unit :=
  start ;;
  api_key <- getenv_api_key ;;
  match api_key with
  | Some (_ :: _) =>
      _ <- agent_steps MAX_STEPS [User PROMPT] ;;
      ret tt
  | _ => simulated
  end.

Definition run_agent : M unit :=
  init ;;
  finally (try_except attempt (fun e => emit (PrintAgentError e))) stop.

End Agent.

(** An instance to run the definitions on sample inputs.  It agrees with
    CPython on floats already written the way [repr] writes them and on
    text [repr] only has to put between apostrophes; its [sys.stdout] is
    UTF-8, which encodes every text without a surrogate code point. *)
Definition plain_builtins : Builtins := {|
  float_is_zero := fun x => str_eqb x (lit "0.0") || str_eqb x (lit "-0.0");
  float_repr := fun x => x;
  str_repr := fun s => 39%N :: s ++ [39%N];
  stdout_encodes :=
    forallb (fun c => negb (is_high_surrogate c || is_low_surrogate c))
|}.

(** ** Sample inputs *)

(** A child that prints the given lines and then closes its output, takes
    every write, and exits when asked to. *)
Definition sample_child (lines : list pystr) : child :=
  {| stdout := map (@inr exn pystr) lines; stdin := []; exits := None |}.

Definition sample_world (key : option pystr) (kids : list (exn + child))
    (replies : list (exn + completion)) : world :=
  {| vm := {| bridge_path := []; process := None |};
     script_dir := lit "/opt/agentvm/example";
     children := kids;
     OPENAI_API_KEY := key;
     endpoint := replies;
     trace := [] |}.

(** A world whose client already holds the child [c]. *)
Definition running (c : child) : world :=
  with_process (Some c) (sample_world None [] []).

Definition READY_LINE : pystr := lit "READY" ++ [NL].

Definition BOOM_LINE : pystr := wire "{'status':'error','error':'boom'}" ++ [NL].

Definition OK_LINE : pystr :=
  wire "{'status':'ok','result':{'stdout':'A','stderr':'','exitCode':0}}" ++ [NL].

Definition RESULT_A : pyval :=
  VDict [(lit "stdout", VStr (lit "A")); (lit "stderr", VStr []);
         (lit "exitCode", VInt 0)].

(** The child's pipe takes the next write. *)
Definition takes_write (c : child) : bool :=
  match stdin c with
  | Some _ :: _ => false
  | _ => true
  end.

(** What [exec] makes of a non-empty response line (lines 53-57), and the
    world an exchange leaves when the child [c] took the request and
    answered with a line, [rest] being the output still to come. *)
Definition reply_outcome {B : Builtins} (line : pystr) : outcome pyval :=
  and_then (json_loads line) (fun resp =>
  and_then (get resp (lit "status")) (fun status =>
  if eq_str status (lit "ok") then getitem resp (lit "result")
  else and_then (get resp (lit "error")) (fun err =>
       Raise (RuntimeError (lit "VM Error: " ++ py_str err))))).

Definition after_exchange (request : pystr) (c : child)
    (rest : list (exn + pystr)) (w : world) : world :=
  with_process
    (Some {| stdout := rest; stdin := tl (stdin c); exits := exits c |})
    (logged (Write request None) w).

Definition EXIT2_LINE : pystr :=
  wire "{'status':'ok','result':{'stdout':'out','stderr':'err','exitCode':2}}"
  ++ [NL].

Definition EXIT2_QUIET_LINE : pystr :=
  wire "{'status':'ok','result':{'stdout':'out','stderr':'','exitCode':2}}"
  ++ [NL].

Definition shell_call (ident : string) (command : string) : tool_call :=
  {| call_id := lit ident;
     fn_name := lit "execute_shell_command";
     fn_arguments := wire "{'command': '" ++ lit command ++ wire "'}" |}.

Definition other_call : tool_call :=
  {| call_id := lit "call_9";
     fn_name := lit "read_file";
     fn_arguments := wire "{'path': '/etc/hostname'}" |}.

(** The request [stop] writes, and what a [stop] shows of a child it
    holds: the request and a wait that ends in time, or a kill after the
    first of the two that fails. *)
Definition STOP_LINE : pystr := wire "{'cmd': 'stop'}" ++ [NL].

Definition stop_events (c : child) : list event :=
  match stdin c with
  | Some e :: _ => [Write STOP_LINE (Some e); Kill]
  | _ =>
      match exits c with
      | None => [Write STOP_LINE None; Wait None]
      | Some e => [Write STOP_LINE None; Wait (Some e); Kill]
      end
  end.

(** Counting events, and the bound a computation keeps on the events it
    adds to the trace (it never removes any, and never touches the
    credential). *)
Definition count (f : event -> bool) (t : list event) : nat :=
  List.length (filter f t).

Definition emits_le {A : Type} (f : event -> bool) (n : nat) (m : M A) : Prop :=
  forall (w : world) (r : outcome A) (w' : world),
    m w = (r, w') ->
    OPENAI_API_KEY w' = OPENAI_API_KEY w
    /\ exists evs, trace w' = trace w ++ evs /\ count f evs <= n.

Definition is_create (e : event) : bool :=
  match e with
  | Create _ => true
  | _ => false
  end.

(** A write to the child other than the stop request. *)
Definition is_request (e : event) : bool :=
  match e with
  | Write line _ => negb (str_eqb line STOP_LINE)
  | _ => false
  end.

Definition LS_LINE : pystr := wire "{'cmd': 'exec', 'command': 'ls -F'}" ++ [NL].

(** A contact with the endpoint, or a write to the child that is neither
    the listing request nor the stop request. *)
Definition is_unexpected (e : event) : bool :=
  match e with
  | Create _ => true
  | Write line _ => negb (str_eqb line STOP_LINE) && negb (str_eqb line LS_LINE)
  | _ => false
  end.

(** Events of this process alone: neither the endpoint nor the pipe. *)
Definition deaf_to_local (f : event -> bool) : Prop :=
  (forall t, f (Print t) = false) /\ (forall t, f (PrintErr t) = false)
  /\ (forall a, f (Popen a) = false) /\ (forall e, f (Wait e) = false)
  /\ f Kill = false /\ (forall e, f (PrintAgentError e) = false).

Definition no_credential (w : world) : bool :=
  match OPENAI_API_KEY w with
  | Some (_ :: _) => false
  | _ => true
  end.

(** Lines [start] reads past, the line it stops at, and the world it leaves
    when the next child [c] prints the latter with [rest] to follow. *)
Definition ignored (line : pystr) : bool :=
  match line with
  | [] => false
  | _ => negb (str_eqb (strip line) (lit "READY"))
  end.

Definition is_ready (line : pystr) : bool :=
  match line with
  | [] => false
  | _ => str_eqb (strip line) (lit "READY")
  end.

Definition booted (c : child) (rest : list (exn + pystr))
    (cs : list (exn + child)) (w : world) : world :=
  logged (PrintErr (lit "VM Ready."))
    (with_process
       (Some {| stdout := rest; stdin := stdin c; exits := exits c |})
       (with_children cs
          (logged (Popen [lit "node"; bridge_path (vm w)])
             (logged (PrintErr (lit "Booting VM...")) w)))).

(** The child's pipe takes the next [n] writes. *)
Definition takes_writes (n : nat) (c : child) : bool :=
  forallb (fun o => match o with None => true | Some _ => false end)
    (firstn n (stdin c)).

(** A child that prints a banner before [READY] and answers one request,
    and a world without a credential that has it to spawn. *)
Definition demo_child : child :=
  sample_child [lit "agentvm: booting" ++ [NL]; READY_LINE; OK_LINE].

Definition demo_world : world := sample_world None [inr demo_child] [].

(** Three scripted replies of the endpoint, two with one shell invocation
    each and a last one with text, and a world whose client holds a child
    that answers two requests. *)
Definition asks (tc : tool_call) : completion :=
  {| choices := [{| content := None; tool_calls := Some [tc] |}] |}.

Definition says (text : string) : completion :=
  {| choices := [{| content := Some (lit text); tool_calls := None |}] |}.

Definition loop_world : world :=
  with_endpoint
    [inr (asks (shell_call "call_1" "python3 fib.py"));
     inr (asks (shell_call "call_2" "cat missing"));
     inr (says "The 10th Fibonacci number is 55.")]
    (running (sample_child [OK_LINE; EXIT2_LINE])).

(** No high surrogate of the text is directly followed by a low one. *)
Fixpoint no_surrogate_pair (s : pystr) : bool :=
  match s with
  | hi :: t =>
      match t with
      | lo :: _ => negb (is_high_surrogate hi && is_low_surrogate lo)
      | [] => true
      end && no_surrogate_pair t
  | [] => true
  end.

(** The text starts with a [\uXXXX] that [scanstring] would take for the
    second half of a pair (or reject). *)
Definition low_escape_ahead (s : pystr) : bool :=
  match s with
  | b :: u :: l1 :: l2 :: l3 :: l4 :: _ =>
      (b =? 92)%N && (u =? 117)%N
      && match decode_u4 l1 l2 l3 l4 with
         | Some x => is_low_surrogate x
         | None => true
         end
  | _ => false
  end.

(** What [exec] writes before the escaped command. *)
Definition REQUEST_HEAD : pystr := wire "{'cmd': 'exec', 'command': '".

Definition printable (c : N) : Prop := (32 <= c <= 126)%N.

(** The cases of [escape_char]. *)
Inductive escape_case (c : N) : pystr -> Prop :=
| escape_short (e : N) :
    (e =? 117)%N = false -> unescape e = Some c -> printable e ->
    escape_case c [92%N; e]
| escape_plain :
    (c =? 34)%N = false -> (c =? 92)%N = false -> printable c ->
    escape_case c [c]
| escape_u :
    (c < 65536)%N -> escape_case c (u_escape c)
| escape_pair :
    (65536 <= c)%N ->
    escape_case c
      (u_escape (N.lor 55296 (N.land (N.shiftr (c - 65536) 10) 1023))
       ++ u_escape (N.lor 56320 (N.land (c - 65536) 1023))).

(** What [start] shows of itself before it waits, and the child a client
    holds once [n] entries of its output have been read. *)
Definition boot_events (w : world) : list event :=
  [PrintErr (lit "Booting VM..."); Popen [lit "node"; bridge_path (vm w)]].

Definition read_to (rest : list (exn + pystr)) (c : child) : child :=
  {| stdout := rest; stdin := stdin c; exits := exits c |}.

Definition UNEXPECTED_EXIT : exn :=
  RuntimeError (lit "VM process exited unexpectedly").

(** A reply whose first choice asks for tools, none of them the shell;
    the message the loop appends for a reply; and the calls the loop makes
    when every reply adds just that message to the conversation. *)
Definition other_tool (tc : tool_call) : bool :=
  negb (str_eqb (fn_name tc) TOOL_NAME).

Definition other_tools_only (r : completion) : bool :=
  match choices r with
  | m :: _ =>
      match tool_calls m with
      | Some (tc :: tcs) => forallb other_tool (tc :: tcs)
      | _ => false
      end
  | [] => false
  end.

Definition first_message (r : completion) : list message :=
  match choices r with
  | m :: _ => [Assistant m]
  | [] => []
  end.

Fixpoint creates (messages : list message) (replies : list completion)
  : list event :=
  match replies with
  | [] => []
  | r :: rs => Create messages :: creates (messages ++ first_message r) rs
  end.

(** A computation changes a component [g] of the world by [f], however it
    ends. *)
Definition moves {X A : Type} (g : world -> X) (f : X -> X) (m : M A) : Prop :=
  forall w, g (snd (m w)) = f (g w).

Definition keeps {X A : Type} (g : world -> X) (m : M A) : Prop :=
  moves g (fun x => x) m.

(** More sample inputs: a child that exits before it is ready, one whose
    pipe is broken, a shell invocation without a command, a world with a
    credential whose endpoint refuses it, and one whose endpoint keeps
    asking for a tool the script does not have. *)
Definition BANNER_LINE : pystr := lit "agentvm: booting" ++ [NL].

Definition silent_child : child := sample_child [BANNER_LINE].

Definition silent_world : world := sample_world None [inr silent_child] [].

Definition deaf_child : child :=
  {| stdout := [inr OK_LINE];
     stdin := [Some (OSError (lit "Broken pipe"))];
     exits := None |}.

Definition bad_call : tool_call :=
  {| call_id := lit "call_3";
     fn_name := lit "execute_shell_command";
     fn_arguments := wire "{'cmd': 'ls'}" |}.

Definition refused_world : world :=
  sample_world (Some (lit "sk-test")) [inr demo_child]
    [inl (APIError (lit "401 Unauthorized"))].

Definition insistent_world : world :=
  with_endpoint
    (map (@inr exn completion)
       [asks other_call; asks other_call; asks other_call; asks other_call;
        asks other_call]
     ++ [inr (says "Never read.")])
    (running (sample_child [])).

(** A world whose endpoint asks for two commands at once and whose child
    answers the first with an error. *)
Definition failing_world : world :=
  with_endpoint
    [inr {| choices :=
              [{| content := None;
                  tool_calls := Some [shell_call "call_1" "make";
                                      shell_call "call_2" "make test"] |}] |};
     inr (says "Never read.")]
    (running (sample_child [BOOM_LINE; OK_LINE])).

(** One shell invocation with the command its arguments hold, the line the
    child answers with and the text the tool message gets; [answered] says
    these fit together. *)
Record exchange : Type := {
  x_call : tool_call;
  x_command : pyval;
  x_line : pystr;
  x_body : pyval
}.

Definition answered {B : Builtins} (x : exchange) : Prop :=
  fn_name (x_call x) = TOOL_NAME
  /\ and_then (json_loads (fn_arguments (x_call x)))
       (fun args => getitem args (lit "command")) = Ret (x_command x)
  /\ x_line x <> []
  /\ and_then (reply_outcome (x_line x)) tool_content = Ret (x_body x).

Definition exchange_events {B : Builtins} (x : exchange) : list event :=
  [PrintErr (lit "[Tool] Executing: " ++ py_str (x_command x));
   Write (exec_request (x_command x) ++ [NL]) None].

Definition tool_message (x : exchange) : message :=
  Tool (call_id (x_call x)) TOOL_NAME (x_body x).

(** What [print(message.content)] is given to show: [None] is shown by
    its name. *)
Definition reply_text (m : chat_message) : pystr :=
  match content m with
  | Some text => text
  | None => lit "None"
  end.

(** The world of [loop_world] with a last reply that a UTF-8 [sys.stdout]
    cannot show: one half of a surrogate pair. *)
Definition LONE_SURROGATE : pystr := [55357%N].

Definition says_text (text : pystr) : completion :=
  {| choices := [{| content := Some text; tool_calls := None |}] |}.

Definition unshown_world : world :=
  with_endpoint
    [inr (asks (shell_call "call_1" "python3 fib.py"));
     inr (asks (shell_call "call_2" "cat missing"));
     inr (says_text LONE_SURROGATE)]
    (running (sample_child [OK_LINE; EXIT2_LINE])).

(** A line of the child that is not JSON: a log line that went to its
    standard output. *)
Definition GARBLED_LINE : pystr := lit "VM: command done" ++ [NL].

(** * Properties *)

Local Open Scope py_scope.

Ltac unfold_monad :=
  unfold bind, ret, raise, lift, emit, self, set_process, try_except_all,
    try_except, finally, getenv_api_key in *.

Lemma with_process_same (w : world) :
  with_process (process (vm w)) w = w.
Proof. destruct w as [[path p] d c k e t]. reflexivity. Qed.

Lemma process_with_process (p : option child) (w : world) :
  process (vm (with_process p w)) = p.
Proof. reflexivity. Qed.

Lemma trace_with_process (p : option child) (w : world) :
  trace (with_process p w) = trace w.
Proof. reflexivity. Qed.

Section ClientProperties.
Context {B : Builtins}.

Lemma exec_without_process (w : world) (command : pyval) :
  process (vm w) = None ->
  exec command w = (Raise (RuntimeError (lit "VM not started")), w).
Proof.
  intros H. unfold exec. unfold_monad. rewrite H. reflexivity.
Qed.

Lemma stop_without_process (w : world) :
  process (vm w) = None -> stop w = (Ret tt, w).
Proof.
  intros H. unfold stop. unfold_monad. rewrite H. reflexivity.
Qed.

(** [stop] always returns, and leaves no process behind. *)
Lemma stop_returns (w : world) :
  exists w', stop w = (Ret tt, w') /\ process (vm w') = None.
Proof.
  destruct w as [[path [[out inp ex]|]] d cs k ep t].
  - unfold stop, write, wait, kill. unfold_monad.
    destruct inp as [|[e|] rest]; destruct ex; cbn; eauto.
  - eexists. split; reflexivity.
Qed.

Lemma init_process (w : world) : process (vm (snd (init w))) = None.
Proof. reflexivity. Qed.

(** The events of one [exec] by a client that holds a child. *)
Lemma exec_trace (w : world) (c : child) (command : pyval) :
  process (vm w) = Some c ->
  trace (snd (exec command w)) =
    trace w ++ [Write (exec_request command ++ [NL])
                  match stdin c with
                  | Some e :: _ => Some e
                  | _ => None
                  end].
Proof.
  intros P. destruct w as [[path p] d cs k ep t]. simpl in P. subst p.
  unfold exec, write, readline. unfold_monad.
  destruct c as [out [|[e|] inp] ex]; cbn -[exec_request json_loads];
    try reflexivity;
    (destruct out as [|[e'|[|x line]] out']; cbn -[exec_request json_loads];
     try reflexivity;
     repeat (match goal with
             | |- context [match ?x with Ret _ => _ | Raise _ => _ end] =>
                 destruct x
             | |- context [if ?x then _ else _] => destruct x
             end; try reflexivity)).
Qed.


(** C7 (stop idempotence).  With no process [stop] changes nothing and
    returns; in any world a first [stop] returns without an error, and a
    second [stop] right after it returns too and leaves the world as the
    first one left it, trace included: nothing is written to the child a
    second time. *)
Theorem stop_idempotent (w : world) :
  stop (with_process None w) = (Ret tt, with_process None w)
  /\ fst (stop w) = Ret tt
  /\ stop (snd (stop w)) = (Ret tt, snd (stop w))
  /\ trace (snd (stop (snd (stop w)))) = trace (snd (stop w)).
Proof.
  destruct (stop_returns w) as (w' & E & P).
  rewrite E. simpl.
  assert (H : stop w' = (Ret tt, w')) by (apply stop_without_process; exact P).
  split; [|split; [|split]].
  - apply stop_without_process. reflexivity.
  - reflexivity.
  - exact H.
  - rewrite H. reflexivity.
Qed.

End ClientProperties.

Lemma str_eqb_eq (a b : pystr) : str_eqb a b = true <-> a = b.
Proof.
  revert b. induction a as [|x a IH]; intros [|y b]; simpl; split;
    try congruence; try reflexivity.
  - intros H. apply andb_true_iff in H. destruct H as [H1 H2].
    apply N.eqb_eq in H1. apply IH in H2. congruence.
  - intros H. injection H as -> ->. rewrite N.eqb_refl.
    apply IH. reflexivity.
Qed.

Lemma str_eqb_refl (a : pystr) : str_eqb a a = true.
Proof. apply str_eqb_eq. reflexivity. Qed.

Lemma str_eqb_neq (a b : pystr) : a <> b -> str_eqb a b = false.
Proof.
  intros H. destruct (str_eqb a b) eqn:E; [|reflexivity].
  apply str_eqb_eq in E. contradiction.
Qed.

Section ToolProperties.
Context {B : Builtins}.

(** The text built from a result whose three fields have their declared
    types. *)
Lemma tool_content_typed (d : pydict) (code : Z) (out err : pystr) :
  dict_get d (lit "exitCode") = Some (VInt code) ->
  dict_get d (lit "stderr") = Some (VStr err) ->
  dict_get d (lit "stdout") = Some (VStr out) ->
  tool_content (VDict d) =
    Ret (VStr (if Z.eqb code 0 then out
               else lit "Error (Exit " ++ int_str code ++ lit "): "
                    ++ match err with [] => out | _ => err end)).
Proof.
  intros Hc He Ho. unfold tool_content, getitem, and_then.
  rewrite Hc. cbn [ne_zero].
  destruct (Z.eqb code 0); cbn [negb].
  - rewrite Ho. reflexivity.
  - rewrite He. cbn [truthy py_str].
    destruct err; [rewrite Ho|]; reflexivity.
Qed.

(** C2 (exit-code formatting).  When the bridge returns a result with an
    integer [exitCode] and text [stderr] and [stdout], the tool message
    appended for the invocation carries [stdout] unchanged if the exit
    code is zero, and otherwise [Error (Exit <code>): ] followed by
    [stderr] if that is not empty and by [stdout] if it is. *)
Theorem tool_message_content
    (tc : tool_call) (messages : list message) (w w' : world)
    (args command : pyval) (d : pydict) (code : Z) (out err : pystr) :
  fn_name tc = TOOL_NAME ->
  json_loads (fn_arguments tc) = Ret args ->
  getitem args (lit "command") = Ret command ->
  exec command (logged (PrintErr (lit "[Tool] Executing: " ++ py_str command)) w)
    = (Ret (VDict d), w') ->
  dict_get d (lit "exitCode") = Some (VInt code) ->
  dict_get d (lit "stderr") = Some (VStr err) ->
  dict_get d (lit "stdout") = Some (VStr out) ->
  call_tool tc messages w =
    (Ret (messages ++
          [Tool (call_id tc) TOOL_NAME
             (VStr (if Z.eqb code 0 then out
                    else lit "Error (Exit " ++ int_str code ++ lit "): "
                         ++ match err with [] => out | _ => err end))]),
     w').
Proof.
  intros Hn Ha Hc He H1 H2 H3. unfold call_tool.
  rewrite Hn, str_eqb_refl. unfold_monad.
  rewrite Ha, Hc, He, (tool_content_typed d H1 H2 H3). reflexivity.
Qed.

Lemma call_tool_other (tc : tool_call) (messages : list message) (w : world) :
  fn_name tc <> TOOL_NAME -> call_tool tc messages w = (Ret messages, w).
Proof.
  intros H. unfold call_tool. rewrite (str_eqb_neq H). reflexivity.
Qed.

(** C9 (other tools are skipped).  An invocation whose function name is
    not [execute_shell_command] returns at once with the conversation and
    the world as they were: nothing is written to the bridge and no tool
    message is appended.  A response handled with such an invocation in it
    is handled exactly as the same response without it, so no message is
    ever tagged with its identifier on its account. *)
Theorem other_tool_skipped
    (tc : tool_call) (messages : list message) (w : world) :
  fn_name tc <> TOOL_NAME ->
  call_tool tc messages w = (Ret messages, w)
  /\ forall before after : list tool_call,
      call_tools (before ++ tc :: after) messages w
      = call_tools (before ++ after) messages w.
Proof.
  intros H. split; [apply call_tool_other; exact H|].
  intros before. revert messages w.
  induction before as [|x before IH]; intros messages w after; simpl.
  - unfold bind. rewrite call_tool_other by exact H. reflexivity.
  - unfold bind. destruct (call_tool x messages w) as [[m|e] w1];
      [apply IH | reflexivity].
Qed.

End ToolProperties.


Section ExecProperties.
Context {B : Builtins}.

Lemma write_taken (w : world) (c : child) (text : pystr) :
  process (vm w) = Some c ->
  takes_write c = true ->
  write text w =
    (Ret tt,
     with_process
       (Some {| stdout := stdout c; stdin := tl (stdin c); exits := exits c |})
       (logged (Write text None) w)).
Proof.
  intros P W. destruct w as [[path p] d cs k ep t]. simpl in P. subst p.
  destruct c as [out [|[e|] inp] ex]; try discriminate; reflexivity.
Qed.

Lemma readline_next (w : world) (c : child) (line : pystr)
    (rest : list (exn + pystr)) :
  process (vm w) = Some c ->
  stdout c = inr line :: rest ->
  readline w =
    (Ret line,
     with_process
       (Some {| stdout := rest; stdin := stdin c; exits := exits c |}) w).
Proof.
  intros P O. unfold readline. rewrite P, O. reflexivity.
Qed.

(** One exchange with a child that takes the request and answers with a
    line. *)
Lemma exec_exchange (w : world) (c : child) (command : pyval)
    (line : pystr) (rest : list (exn + pystr)) :
  process (vm w) = Some c ->
  takes_write c = true ->
  stdout c = inr line :: rest ->
  line <> [] ->
  exec command w =
    (reply_outcome line,
     after_exchange (exec_request command ++ [NL]) c rest w).
Proof.
  intros P W O L. unfold exec. unfold_monad. rewrite P.
  rewrite write_taken with (c := c) by assumption.
  erewrite readline_next; [|reflexivity|exact O].
  destruct line as [|x line]; [contradiction|].
  unfold reply_outcome, after_exchange, and_then.
  destruct (json_loads (x :: line)) as [resp|e]; [|reflexivity].
  destruct (get resp (lit "status")) as [status|e]; [|reflexivity].
  destruct (eq_str status (lit "ok")); [reflexivity|].
  destruct (get resp (lit "error")); reflexivity.
Qed.

(** C1, as amended (response handling).  After a request the child took,
    when the response line parses as a JSON object: with [status] equal to
    [ok] and a [result] member, [exec] returns that member as parsed; with
    any other [status], [exec] raises [RuntimeError] with the message
    [VM Error: ] followed by [str()] of the [error] member ([None] when
    there is none). *)
Theorem exec_reply (w : world) (c : child) (command : pyval)
    (line : pystr) (rest : list (exn + pystr)) (resp : pydict) :
  process (vm w) = Some c ->
  takes_write c = true ->
  stdout c = inr line :: rest ->
  line <> [] ->
  json_loads line = Ret (VDict resp) ->
  (forall r, dict_get resp (lit "status") = Some (VStr (lit "ok")) ->
             dict_get resp (lit "result") = Some r ->
             fst (exec command w) = Ret r)
  /\ (forall status, get (VDict resp) (lit "status") = Ret status ->
                     eq_str status (lit "ok") = false ->
        fst (exec command w) =
          Raise (RuntimeError
                   (lit "VM Error: "
                    ++ py_str (match dict_get resp (lit "error") with
                               | Some e => e
                               | None => VNone
                               end)))).
Proof.
  intros P W O L J.
  rewrite exec_exchange with (c := c) (line := line) (rest := rest)
    by assumption.
  cbn [fst].
  unfold reply_outcome. rewrite J. split.
  - intros r S R. cbn [and_then get getitem]. rewrite S.
    cbn [and_then eq_str]. rewrite str_eqb_refl, R. reflexivity.
  - intros status S E. cbn [and_then]. rewrite S. cbn [and_then].
    rewrite E. cbn [get]. destruct (dict_get resp (lit "error")); reflexivity.
Qed.

(** C10 (malformed output).  The line [VM: command done] is not empty and
    is not JSON: [json.loads] raises [JSONDecodeError] on it.  Whenever the
    child has taken the request and answers with a non-empty line that
    [json.loads] rejects, [exec] ends with that [JSONDecodeError], the
    request written and the line read; and [JSONDecodeError] is none of
    the [RuntimeError]s the script raises itself (not started, closed
    connection, VM error). *)
Theorem exec_malformed_line :
  (GARBLED_LINE <> [] /\ json_loads GARBLED_LINE = Raise JSONDecodeError)
  /\ (forall (w : world) (c : child) (command : pyval) (line : pystr)
             (rest : list (exn + pystr)),
        process (vm w) = Some c ->
        takes_write c = true ->
        stdout c = inr line :: rest ->
        line <> [] ->
        json_loads line = Raise JSONDecodeError ->
        exec command w =
          (Raise JSONDecodeError,
           after_exchange (exec_request command ++ [NL]) c rest w))
  /\ (forall msg, JSONDecodeError <> RuntimeError msg).
Proof.
  split; [|split].
  - split; [discriminate|]. vm_compute. reflexivity.
  - intros w c command line rest P W O L J.
    rewrite exec_exchange with (c := c) (line := line) (rest := rest)
      by assumption.
    unfold reply_outcome. rewrite J. reflexivity.
  - discriminate.
Qed.

End ExecProperties.

Section RunProperties.
Context {B : Builtins}.

Lemma stop_request_line : stop_request ++ [NL] = STOP_LINE.
Proof. reflexivity. Qed.

(** What [stop] does in any world. *)
Lemma stop_effect (w : world) :
  exists w',
    stop w = (Ret tt, w')
    /\ process (vm w') = None
    /\ trace w' = trace w ++ match process (vm w) with
                             | Some c => stop_events c
                             | None => []
                             end.
Proof.
  destruct w as [[path [[out inp ex]|]] d cs k ep t].
  - unfold stop, write, wait, kill, stop_events. unfold_monad.
    rewrite stop_request_line.
    destruct inp as [|[e|] rest]; destruct ex; cbn -[STOP_LINE];
      eexists; (split; [reflexivity|split; [reflexivity|]]);
      cbn -[STOP_LINE]; rewrite <- ?app_assoc; reflexivity.
  - eexists. split; [reflexivity|]. split; [reflexivity|].
    cbn. rewrite app_nil_r. reflexivity.
Qed.

(** [run_agent] in terms of how its [try] block ends. *)
Lemma run_agent_outcome (w : world) :
  run_agent w =
    match attempt (snd (init w)) with
    | (Ret _, w1) => (Ret tt, snd (stop w1))
    | (Raise e, w1) =>
        if is_Exception e
        then (Ret tt, snd (stop (logged (PrintAgentError e) w1)))
        else (Raise e, snd (stop w1))
    end.
Proof.
  assert (R : forall (r : outcome unit) (w1 : world),
             (let (o, w2) := stop w1 in
              match o with
              | Ret _ => (r, w2)
              | Raise e => (Raise e, w2)
              end) = (r, snd (stop w1))).
  { intros r w1. destruct (stop_effect w1) as (w' & E & _). rewrite E.
    reflexivity. }
  unfold run_agent. unfold_monad. cbn [init].
  change (with_vm _ w) with (snd (init w)).
  destruct (attempt (snd (init w))) as [[[]|e] w1].
  - apply R.
  - destruct (is_Exception e); apply R.
Qed.


End RunProperties.

Section Emits.
Variable f : event -> bool.

Lemma count_app (a b : list event) : count f (a ++ b) = count f a + count f b.
Proof. unfold count. rewrite filter_app, length_app. reflexivity. Qed.

Lemma count_one (e : event) : count f [e] = if f e then 1 else 0.
Proof. unfold count. simpl. destruct (f e); reflexivity. Qed.

Lemma emits_pure (A : Type) (m : M A) :
  (forall w, snd (m w) = w) -> emits_le f 0 m.
Proof.
  intros H w r w' E. specialize (H w). rewrite E in H. simpl in H. subst w'.
  split; [reflexivity|]. exists []. rewrite app_nil_r. split; [reflexivity|].
  apply Nat.le_0_l.
Qed.

Lemma emits_ret (A : Type) (a : A) : emits_le f 0 (ret a).
Proof. apply emits_pure. reflexivity. Qed.

Lemma emits_raise (A : Type) (e : exn) : emits_le f 0 (@raise A e).
Proof. apply emits_pure. reflexivity. Qed.

Lemma emits_lift (A : Type) (o : outcome A) : emits_le f 0 (lift o).
Proof. apply emits_pure. reflexivity. Qed.

Lemma emits_self : emits_le f 0 self.
Proof. apply emits_pure. reflexivity. Qed.

Lemma emits_getenv : emits_le f 0 getenv_api_key.
Proof. apply emits_pure. reflexivity. Qed.

Lemma emits_quiet (A : Type) (m : M A) :
  (forall w, OPENAI_API_KEY (snd (m w)) = OPENAI_API_KEY w
             /\ trace (snd (m w)) = trace w) ->
  emits_le f 0 m.
Proof.
  intros H w r w' E. specialize (H w). rewrite E in H. simpl in H.
  destruct H as [K T]. split; [exact K|]. exists []. rewrite app_nil_r.
  split; [exact T|]. apply Nat.le_0_l.
Qed.

Lemma emits_set_process (p : option child) : emits_le f 0 (set_process p).
Proof. apply emits_quiet. intros w. split; reflexivity. Qed.

Lemma emits_init : emits_le f 0 init.
Proof. apply emits_quiet. intros w. split; reflexivity. Qed.

Lemma emits_readline : emits_le f 0 readline.
Proof.
  apply emits_quiet. intros w. unfold readline.
  destruct (process (vm w)) as [c|]; [|split; reflexivity].
  destruct (stdout c) as [|[e|line] rest]; split; reflexivity.
Qed.

Lemma emits_mono (A : Type) (m : M A) (a b : nat) :
  emits_le f a m -> a <= b -> emits_le f b m.
Proof.
  intros H L w r w' E. destruct (H w r w' E) as (K & evs & T & C).
  split; [exact K|]. exists evs. split; [exact T|]. lia.
Qed.

Lemma emits_step (A : Type) (e : event) (r : outcome A) (g : world -> world) :
  (forall w, OPENAI_API_KEY (g w) = OPENAI_API_KEY w
             /\ trace (g w) = trace w) ->
  emits_le f (if f e then 1 else 0) (fun w => (r, logged e (g w))).
Proof.
  intros H w r' w' E. injection E as <- <-. destruct (H w) as [K T].
  split; [exact K|]. exists [e]. cbn [logged trace]. rewrite T, count_one.
  split; [reflexivity|]. apply Nat.le_refl.
Qed.

Lemma emits_emit (e : event) : emits_le f (if f e then 1 else 0) (emit e).
Proof.
  apply (@emits_step unit e (Ret tt) (fun w => w)). intros w. split; reflexivity.
Qed.

Lemma emits_bind (A C : Type) (m : M A) (k : A -> M C) (a b : nat) :
  emits_le f a m -> (forall x, emits_le f b (k x)) ->
  emits_le f (a + b) (bind m k).
Proof.
  intros Hm Hk w r w' E. unfold bind in E.
  destruct (m w) as [[x|e] w1] eqn:E1;
    destruct (Hm _ _ _ E1) as (K1 & evs1 & T1 & C1).
  - destruct (Hk x _ _ _ E) as (K2 & evs2 & T2 & C2).
    split; [congruence|]. exists (evs1 ++ evs2).
    rewrite T2, T1, app_assoc, count_app. split; [reflexivity|]. lia.
  - injection E as <- <-. split; [exact K1|]. exists evs1.
    split; [exact T1|]. lia.
Qed.

Lemma emits_try_all (A : Type) (m h : M A) (a b : nat) :
  emits_le f a m -> emits_le f b h -> emits_le f (a + b) (try_except_all m h).
Proof.
  intros Hm Hh w r w' E. unfold try_except_all in E.
  destruct (m w) as [[x|e] w1] eqn:E1;
    destruct (Hm _ _ _ E1) as (K1 & evs1 & T1 & C1).
  - injection E as <- <-. split; [exact K1|]. exists evs1.
    split; [exact T1|]. lia.
  - destruct (Hh _ _ _ E) as (K2 & evs2 & T2 & C2).
    split; [congruence|]. exists (evs1 ++ evs2).
    rewrite T2, T1, app_assoc, count_app. split; [reflexivity|]. lia.
Qed.

Lemma emits_try (A : Type) (m : M A) (h : exn -> M A) (a b : nat) :
  emits_le f a m -> (forall e, emits_le f b (h e)) ->
  emits_le f (a + b) (try_except m h).
Proof.
  intros Hm Hh w r w' E. unfold try_except in E.
  destruct (m w) as [[x|e] w1] eqn:E1;
    destruct (Hm _ _ _ E1) as (K1 & evs1 & T1 & C1).
  - injection E as <- <-. split; [exact K1|]. exists evs1.
    split; [exact T1|]. lia.
  - destruct (is_Exception e).
    + destruct (Hh e _ _ _ E) as (K2 & evs2 & T2 & C2).
      split; [congruence|]. exists (evs1 ++ evs2).
      rewrite T2, T1, app_assoc, count_app. split; [reflexivity|]. lia.
    + injection E as <- <-. split; [exact K1|]. exists evs1.
      split; [exact T1|]. lia.
Qed.

Lemma emits_finally (A : Type) (m : M A) (g : M unit) (a b : nat) :
  emits_le f a m -> emits_le f b g -> emits_le f (a + b) (finally m g).
Proof.
  intros Hm Hg w r w' E. unfold finally in E.
  destruct (m w) as [r1 w1] eqn:E1.
  destruct (Hm _ _ _ E1) as (K1 & evs1 & T1 & C1).
  destruct (g w1) as [r2 w2] eqn:E2.
  destruct (Hg _ _ _ E2) as (K2 & evs2 & T2 & C2).
  assert (w' = w2) by (destruct r2; congruence). subst w'.
  split; [congruence|]. exists (evs1 ++ evs2).
  rewrite T2, T1, app_assoc, count_app. split; [reflexivity|]. lia.
Qed.

End Emits.

Section EmitsClient.
Context {B : Builtins}.
Variable f : event -> bool.
Hypothesis deaf : deaf_to_local f.

Lemma emits_spawn (argv : list pystr) : emits_le f 0 (spawn argv).
Proof.
  intros w r w' E. unfold spawn in E.
  assert (F : f (Popen argv) = false) by apply deaf.
  destruct (children (logged (Popen argv) w)) as [|[e|c] rest];
    injection E as <- <-; (split; [reflexivity|]); exists [Popen argv];
    (split; [reflexivity|]); rewrite count_one, F; apply Nat.le_refl.
Qed.

Lemma emits_write (text : pystr) (b : bool) :
  (forall err, f (Write text err) = b) ->
  emits_le f (if b then 1 else 0) (write text).
Proof.
  intros H w r w' E. unfold write in E.
  destruct (process (vm w)) as [c|].
  - destruct (stdin c) as [|[e|] rest]; injection E as <- <-;
      (split; [reflexivity|]); eexists; (split; [reflexivity|]);
      rewrite count_one, H; apply Nat.le_refl.
  - injection E as <- <-. split; [reflexivity|]. exists [].
    rewrite app_nil_r. split; [reflexivity|]. apply Nat.le_0_l.
Qed.

Lemma emits_wait : emits_le f 0 wait.
Proof.
  intros w r w' E. unfold wait in E.
  destruct (process (vm w)) as [c|].
  - destruct (exits c) as [e|]; injection E as <- <-;
      (split; [reflexivity|]); eexists; (split; [reflexivity|]);
      rewrite count_one;
      match goal with
      | |- context [f (Wait ?x)] =>
          replace (f (Wait x)) with false by (symmetry; apply deaf)
      end;
      apply Nat.le_refl.
  - injection E as <- <-. split; [reflexivity|]. exists [].
    rewrite app_nil_r. split; [reflexivity|]. apply Nat.le_0_l.
Qed.

Lemma emits_kill : emits_le f 0 kill.
Proof.
  intros w r w' E. unfold kill in E.
  destruct (process (vm w)) as [c|]; injection E as <- <-;
    (split; [reflexivity|]).
  - exists [Kill]. split; [reflexivity|]. rewrite count_one.
    replace (f Kill) with false by (symmetry; apply deaf). apply Nat.le_refl.
  - exists []. rewrite app_nil_r. split; [reflexivity|]. apply Nat.le_0_l.
Qed.

Lemma emits_create (messages : list message) :
  emits_le f (if f (Create messages) then 1 else 0) (create messages).
Proof.
  intros w r w' E. unfold create in E.
  destruct (endpoint (logged (Create messages) w)) as [|[e|c] rest];
    injection E as <- <-; (split; [reflexivity|]); exists [Create messages];
    (split; [reflexivity|]); rewrite count_one; apply Nat.le_refl.
Qed.

Lemma emits_print (t : pystr) : emits_le f 0 (emit (Print t)).
Proof.
  eapply emits_mono; [apply emits_emit|].
  replace (f (Print t)) with false by (symmetry; apply deaf). apply Nat.le_refl.
Qed.

Lemma emits_print_stdout (t : pystr) : emits_le f 0 (print_stdout t).
Proof.
  unfold print_stdout. destruct (encodable t);
    [apply emits_print|apply emits_raise].
Qed.

Lemma emits_print_err (t : pystr) : emits_le f 0 (emit (PrintErr t)).
Proof.
  eapply emits_mono; [apply emits_emit|].
  replace (f (PrintErr t)) with false by (symmetry; apply deaf).
  apply Nat.le_refl.
Qed.

Lemma emits_print_agent_error (e : exn) :
  emits_le f 0 (emit (PrintAgentError e)).
Proof.
  eapply emits_mono; [apply emits_emit|].
  replace (f (PrintAgentError e)) with false by (symmetry; apply deaf).
  apply Nat.le_refl.
Qed.

Lemma emits_wait_ready (fuel : nat) : emits_le f 0 (wait_ready fuel).
Proof.
  induction fuel as [|fuel IH]; simpl.
  - apply emits_raise.
  - apply (@emits_bind f _ _ readline _ 0 0); [apply emits_readline|].
    intros [|ch line]; [apply emits_raise|].
    destruct (str_eqb _ _); [apply emits_ret|exact IH].
Qed.

Lemma emits_start : emits_le f 0 start.
Proof.
  unfold start.
  apply (@emits_bind f _ _ _ _ 0 0); [apply emits_print_err|intros _].
  apply (@emits_bind f _ _ _ _ 0 0); [apply emits_self|intros me].
  apply (@emits_bind f _ _ _ _ 0 0); [apply emits_spawn|intros p].
  apply (@emits_bind f _ _ _ _ 0 0); [apply emits_set_process|intros _].
  apply (@emits_bind f _ _ _ _ 0 0); [apply emits_wait_ready|intros _].
  apply emits_print_err.
Qed.

Lemma emits_stop :
  (forall err, f (Write STOP_LINE err) = false) -> emits_le f 0 stop.
Proof.
  intros H. unfold stop.
  apply (@emits_bind f _ _ _ _ 0 0); [apply emits_self|intros me].
  destruct (process me); [|apply emits_ret].
  apply (@emits_bind f _ _ _ _ 0 0); [|intros _; apply emits_set_process].
  apply (@emits_try_all f _ _ _ 0 0); [|apply emits_kill].
  apply (@emits_bind f _ _ _ _ 0 0); [|intros _; apply emits_wait].
  rewrite stop_request_line. apply (@emits_write STOP_LINE false H).
Qed.

Lemma emits_exec (command : pyval) (b : bool) :
  (forall err, f (Write (exec_request command ++ [NL]) err) = b) ->
  emits_le f (if b then 1 else 0) (exec command).
Proof.
  intros H. unfold exec.
  apply (@emits_bind f _ _ _ _ 0 _); [apply emits_self|intros me].
  destruct (process me);
    [|eapply emits_mono; [apply emits_raise|apply Nat.le_0_l]].
  eapply emits_mono;
    [apply (@emits_bind f _ _ _ _ (if b then 1 else 0) 0)|lia].
  - apply emits_write. exact H.
  - intros _. apply (@emits_bind f _ _ _ _ 0 0); [apply emits_readline|].
    intros [|ch line]; [apply emits_raise|].
    apply (@emits_bind f _ _ _ _ 0 0); [apply emits_lift|intros resp].
    apply (@emits_bind f _ _ _ _ 0 0); [apply emits_lift|intros status].
    destruct (eq_str status (lit "ok")); [apply emits_lift|].
    apply (@emits_bind f _ _ _ _ 0 0); [apply emits_lift|intros err].
    apply emits_raise.
Qed.

End EmitsClient.

Section LoopBound.
Context {B : Builtins}.

Lemma deaf_is_create : deaf_to_local is_create.
Proof. repeat split. Qed.

Lemma deaf_is_request : deaf_to_local is_request.
Proof. repeat split. Qed.

Lemma deaf_is_unexpected : deaf_to_local is_unexpected.
Proof. repeat split. Qed.

Lemma call_tool_no_create (tc : tool_call) (messages : list message) :
  emits_le is_create 0 (call_tool tc messages).
Proof.
  unfold call_tool. destruct (str_eqb (fn_name tc) TOOL_NAME); [|apply emits_ret].
  apply (@emits_bind _ _ _ _ _ 0 0); [apply emits_lift|intros args].
  apply (@emits_bind _ _ _ _ _ 0 0); [apply emits_lift|intros command].
  apply (@emits_bind _ _ _ _ _ 0 0);
    [apply emits_print_err, deaf_is_create|intros _].
  apply (@emits_bind _ _ _ _ _ 0 0);
    [apply emits_exec with (b := false); reflexivity|intros cmd_res].
  apply (@emits_bind _ _ _ _ _ 0 0); [apply emits_lift|intros body].
  apply emits_ret.
Qed.

Lemma call_tools_no_create (tcs : list tool_call) (messages : list message) :
  emits_le is_create 0 (call_tools tcs messages).
Proof.
  revert messages. induction tcs as [|tc tcs IH]; intros messages; simpl.
  - apply emits_ret.
  - apply (@emits_bind _ _ _ _ _ 0 0); [apply call_tool_no_create|exact IH].
Qed.

(** The loop contacts the endpoint once per step at most. *)
Lemma agent_steps_bound (budget : nat) (messages : list message) :
  emits_le is_create budget (agent_steps budget messages).
Proof.
  revert messages. induction budget as [|budget IH]; intros messages; simpl.
  - apply emits_ret.
  - apply (@emits_bind _ _ _ _ _ 1 budget);
      [apply (emits_create is_create messages)|intros response].
    destruct (choices response) as [|message others];
      [eapply emits_mono; [apply emits_raise|apply Nat.le_0_l]|].
    assert (Q : emits_le is_create budget
                  (bind (emit (Print (NL :: lit "Agent Response:")))
                     (fun _ =>
                      bind (print_stdout match content message with
                                         | Some text => text
                                         | None => lit "None"
                                         end)
                        (fun _ => ret (messages ++ [Assistant message]))))).
    { eapply emits_mono; [|apply Nat.le_0_l].
      apply (@emits_bind _ _ _ _ _ 0 0);
        [apply emits_print, deaf_is_create|intros _].
      apply (@emits_bind _ _ _ _ _ 0 0);
        [apply emits_print_stdout, deaf_is_create|intros _].
      apply emits_ret. }
    destruct (tool_calls message) as [[|tc tcs]|]; try exact Q.
    apply (@emits_bind _ _ _ _ _ 0 budget);
      [apply call_tools_no_create|intros messages'; apply IH].
Qed.

Lemma simulated_emits (f : event -> bool) (b : bool) :
  deaf_to_local f ->
  (forall err, f (Write LS_LINE err) = b) ->
  emits_le f (if b then 1 else 0) simulated.
Proof.
  intros D H. unfold simulated.
  apply (@emits_bind _ _ _ _ _ 0 _); [apply emits_print, D|intros _].
  apply (@emits_bind _ _ _ _ _ 0 _); [apply emits_print, D|intros _].
  eapply emits_mono;
    [apply (@emits_bind _ _ _ _ _ (if b then 1 else 0) 0)|lia].
  - apply emits_exec with (b := b). exact H.
  - intros res. apply emits_print, D.
Qed.

Lemma attempt_bound : emits_le is_create MAX_STEPS attempt.
Proof.
  unfold attempt.
  apply (@emits_bind _ _ _ _ _ 0 MAX_STEPS);
    [apply emits_start, deaf_is_create|intros _].
  apply (@emits_bind _ _ _ _ _ 0 MAX_STEPS); [apply emits_getenv|intros key].
  assert (Q : emits_le is_create MAX_STEPS simulated).
  { eapply emits_mono;
      [apply (@simulated_emits is_create false deaf_is_create); reflexivity
      |apply Nat.le_0_l]. }
  destruct key as [[|k key]|]; try exact Q.
  eapply emits_mono;
    [apply (@emits_bind _ _ _ _ _ MAX_STEPS 0);
     [apply agent_steps_bound|intros _; apply emits_ret]
    |lia].
Qed.

Lemma guarded_emits (f : event -> bool) (n : nat) (body : M unit) :
  deaf_to_local f ->
  (forall err, f (Write STOP_LINE err) = false) ->
  emits_le f n body ->
  emits_le f n
    (init ;; finally (try_except body (fun e => emit (PrintAgentError e))) stop).
Proof.
  intros D S H.
  apply (@emits_bind _ _ _ _ _ 0 n); [apply emits_init|intros _].
  eapply emits_mono; [apply (@emits_finally _ _ _ _ n 0)|lia].
  - eapply emits_mono; [apply (@emits_try _ _ _ _ n 0)|lia].
    + exact H.
    + intros e. apply emits_print_agent_error, D.
  - apply emits_stop; assumption.
Qed.

Lemma run_agent_emits (f : event -> bool) (n : nat) :
  deaf_to_local f ->
  (forall err, f (Write STOP_LINE err) = false) ->
  emits_le f n attempt ->
  emits_le f n run_agent.
Proof. intros D S H. unfold run_agent. apply guarded_emits; assumption. Qed.

Lemma run_agent_bound : emits_le is_create MAX_STEPS run_agent.
Proof.
  apply run_agent_emits;
    [apply deaf_is_create|reflexivity|apply attempt_bound].
Qed.

End LoopBound.

Section Scenarios.
Context {B : Builtins}.

Lemma create_next (w : world) (messages : list message) (r : completion)
    (rest : list (exn + completion)) :
  endpoint w = inr r :: rest ->
  create messages w = (Ret r, with_endpoint rest (logged (Create messages) w)).
Proof. intros E. unfold create. cbn [endpoint logged]. rewrite E. reflexivity. Qed.

Lemma wait_ready_boot (junk : list pystr) :
  forall (fuel : nat) (w : world) (c : child) (ready : pystr)
         (rest : list (exn + pystr)),
    process (vm w) = Some c ->
    stdout c = map (@inr exn pystr) junk ++ inr ready :: rest ->
    forallb ignored junk = true ->
    is_ready ready = true ->
    List.length junk < fuel ->
    wait_ready fuel w =
      (Ret tt,
       with_process
         (Some {| stdout := rest; stdin := stdin c; exits := exits c |}) w).
Proof.
  induction junk as [|line junk IH]; intros fuel w c ready rest P O I R F;
    (destruct fuel as [|fuel]; [inversion F|]); simpl in O; cbn [wait_ready].
  - unfold bind. erewrite readline_next by eassumption.
    unfold is_ready in R. destruct ready as [|x ready]; [discriminate|].
    rewrite R. reflexivity.
  - unfold bind. erewrite readline_next by eassumption.
    simpl in I. apply andb_true_iff in I. destruct I as [I1 I2].
    unfold ignored in I1. destruct line as [|x line]; [discriminate|].
    apply negb_true_iff in I1. rewrite I1.
    rewrite IH
      with (c := {| stdout := map (@inr exn pystr) junk ++ inr ready :: rest;
                    stdin := stdin c; exits := exits c |})
           (ready := ready) (rest := rest);
      [reflexivity|reflexivity|reflexivity|exact I2|exact R|].
    simpl in F. lia.
Qed.

Lemma start_boot (w : world) (c : child) (cs : list (exn + child))
    (junk : list pystr) (ready : pystr) (rest : list (exn + pystr)) :
  children w = inr c :: cs ->
  stdout c = map (@inr exn pystr) junk ++ inr ready :: rest ->
  forallb ignored junk = true ->
  is_ready ready = true ->
  start w = (Ret tt, booted c rest cs w).
Proof.
  intros K O I R. unfold start. unfold_monad. unfold spawn.
  cbn [children logged]. rewrite K.
  erewrite wait_ready_boot;
    [reflexivity|reflexivity|exact O|exact I|exact R|].
  rewrite O, length_app, length_map. simpl. lia.
Qed.

Lemma attempt_without_credential (w w1 : world) :
  no_credential w = true ->
  start w = (Ret tt, w1) ->
  attempt w = simulated w1.
Proof.
  intros N S. unfold attempt. unfold_monad. rewrite S.
  destruct (emits_start deaf_is_create w S) as [K _].
  unfold no_credential in N. rewrite K.
  destruct (OPENAI_API_KEY w) as [[|x key]|]; try reflexivity. discriminate.
Qed.

Lemma ls_request_line : exec_request (VStr (lit "ls -F")) ++ [NL] = LS_LINE.
Proof. reflexivity. Qed.

Lemma simulated_exchange (w : world) (c : child) (line : pystr)
    (rest : list (exn + pystr)) (res : pyval) :
  process (vm w) = Some c ->
  takes_write c = true ->
  stdout c = inr line :: rest ->
  line <> [] ->
  reply_outcome line = Ret res ->
  simulated w =
    (Ret tt,
     logged (Print (lit "Tool Output: " ++ json_dumps res))
       (after_exchange LS_LINE c rest
          (logged (Print (lit "User: List files in current directory."))
             (logged (Print (NL :: lit "[Simulated Agent Interaction]")) w)))).
Proof.
  intros P W O L R. unfold simulated. unfold_monad.
  erewrite exec_exchange; [|exact P|exact W|exact O|exact L].
  rewrite R, ls_request_line. reflexivity.
Qed.

Lemma attempt_no_credential (w : world) :
  no_credential w = true ->
  attempt w = (start ;; simulated) w.
Proof.
  intros N. unfold attempt. unfold_monad.
  destruct (start w) as [[[]|e] w1] eqn:S; [|reflexivity].
  destruct (emits_start deaf_is_create w S) as [K _].
  unfold no_credential in N. rewrite K.
  destruct (OPENAI_API_KEY w) as [[|x key]|]; try reflexivity. discriminate.
Qed.

Lemma run_agent_no_credential (w : world) :
  no_credential w = true ->
  run_agent w =
    (init ;;
     finally (try_except (start ;; simulated)
                (fun e => emit (PrintAgentError e))) stop) w.
Proof.
  intros N. unfold run_agent.
  unfold bind at 1 3. unfold finally, try_except. cbn [init].
  rewrite attempt_no_credential by exact N. reflexivity.
Qed.

(** Without a credential a run adds at most one event of a kind [f] that
    is deaf to local events and to the stop request, and none unless [f]
    counts the listing request. *)
Lemma degraded_emits (f : event -> bool) (b : bool) (w : world) :
  deaf_to_local f ->
  (forall err, f (Write STOP_LINE err) = false) ->
  (forall err, f (Write LS_LINE err) = b) ->
  no_credential w = true ->
  exists evs,
    trace (snd (run_agent w)) = trace w ++ evs
    /\ count f evs <= (if b then 1 else 0).
Proof.
  intros D S L N. rewrite run_agent_no_credential by exact N.
  assert (H : emits_le f (if b then 1 else 0) (start ;; simulated)).
  { apply (@emits_bind _ _ _ _ _ 0 _); [apply emits_start, D|intros _].
    apply simulated_emits; assumption. }
  pose proof (guarded_emits D S H) as G.
  destruct ((init ;;
             finally (try_except (start ;; simulated)
                        (fun e => emit (PrintAgentError e))) stop) w)
    as [r w'] eqn:E.
  destruct (G w r w' E) as (_ & evs & T & C).
  exists evs. split; assumption.
Qed.


Lemma emits_le_run (A : Type) (f : event -> bool) (n : nat) (m : M A) :
  emits_le f n m ->
  forall w, exists evs, trace (snd (m w)) = trace w ++ evs /\ count f evs <= n.
Proof.
  intros H w. destruct (m w) as [r w'] eqn:E.
  destruct (H w r w' E) as (_ & evs & T & C). exists evs. split; assumption.
Qed.

(** One invocation of the shell tool, answered by the child. *)
Lemma call_tool_exchange (w : world) (c : child) (tc : tool_call)
    (messages : list message) (args command : pyval) (line : pystr)
    (rest : list (exn + pystr)) (res body : pyval) :
  fn_name tc = TOOL_NAME ->
  json_loads (fn_arguments tc) = Ret args ->
  getitem args (lit "command") = Ret command ->
  process (vm w) = Some c ->
  takes_write c = true ->
  stdout c = inr line :: rest ->
  line <> [] ->
  reply_outcome line = Ret res ->
  tool_content res = Ret body ->
  call_tool tc messages w =
    (Ret (messages ++ [Tool (call_id tc) TOOL_NAME body]),
     after_exchange (exec_request command ++ [NL]) c rest
       (logged (PrintErr (lit "[Tool] Executing: " ++ py_str command)) w)).
Proof.
  intros Hn Ha Hc P W O L R T. unfold call_tool.
  rewrite Hn, str_eqb_refl. unfold_monad. rewrite Ha, Hc.
  rewrite exec_exchange with (c := c) (line := line) (rest := rest);
    [|exact P|exact W|exact O|exact L].
  rewrite R, T. reflexivity.
Qed.

(** A step of the loop on a reply with one shell invocation. *)
Lemma agent_step_tool (budget : nat) (w : world) (c : child)
    (messages : list message) (r : completion) (m : chat_message)
    (others : list chat_message) (ep : list (exn + completion))
    (tc : tool_call) (args command : pyval) (line : pystr)
    (rest : list (exn + pystr)) (res body : pyval) :
  endpoint w = inr r :: ep ->
  choices r = m :: others ->
  tool_calls m = Some [tc] ->
  fn_name tc = TOOL_NAME ->
  json_loads (fn_arguments tc) = Ret args ->
  getitem args (lit "command") = Ret command ->
  process (vm w) = Some c ->
  takes_write c = true ->
  stdout c = inr line :: rest ->
  line <> [] ->
  reply_outcome line = Ret res ->
  tool_content res = Ret body ->
  agent_steps (S budget) messages w =
    agent_steps budget
      (messages ++ [Assistant m; Tool (call_id tc) TOOL_NAME body])
      (after_exchange (exec_request command ++ [NL]) c rest
         (logged (PrintErr (lit "[Tool] Executing: " ++ py_str command))
            (with_endpoint ep (logged (Create messages) w)))).
Proof.
  intros E C T Hn Ha Hc P W O L R Q. cbn [agent_steps]. unfold bind at 1.
  rewrite create_next with (r := r) (rest := ep) by exact E.
  rewrite C, T. cbn [call_tools]. unfold bind at 1. unfold bind at 1.
  rewrite call_tool_exchange
    with (c := c) (args := args) (command := command) (line := line)
         (rest := rest) (res := res) (body := body);
    [|exact Hn|exact Ha|exact Hc|exact P|exact W|exact O|exact L|exact R
     |exact Q].
  unfold ret. rewrite <- app_assoc. reflexivity.
Qed.

(** A step of the loop on a reply without invocations: the text is shown
    if [sys.stdout] can encode it, and [print] raises if not. *)
Lemma agent_step_answer (budget : nat) (w : world) (messages : list message)
    (r : completion) (m : chat_message) (others : list chat_message)
    (ep : list (exn + completion)) :
  endpoint w = inr r :: ep ->
  choices r = m :: others ->
  tool_calls m = None \/ tool_calls m = Some [] ->
  agent_steps (S budget) messages w =
    if encodable (reply_text m)
    then (Ret (messages ++ [Assistant m]),
          logged (Print (reply_text m))
            (logged (Print (NL :: lit "Agent Response:"))
               (with_endpoint ep (logged (Create messages) w))))
    else (Raise UnicodeEncodeError,
          logged (Print (NL :: lit "Agent Response:"))
            (with_endpoint ep (logged (Create messages) w))).
Proof.
  intros E C T. cbn [agent_steps]. unfold bind at 1.
  rewrite create_next with (r := r) (rest := ep) by exact E.
  rewrite C. unfold bind, emit, print_stdout, ret, raise.
  fold (reply_text m).
  destruct T as [T|T]; rewrite T; destruct (encodable (reply_text m));
    reflexivity.
Qed.

Lemma takes_writes_two (c : child) :
  takes_writes 2 c = true ->
  takes_write c = true
  /\ forall out,
       takes_write {| stdout := out; stdin := tl (stdin c); exits := exits c |}
       = true.
Proof.
  unfold takes_writes, takes_write. destruct c as [o [|[e|] [|[e'|] i]] x];
    simpl; intros H; try discriminate; split; reflexivity.
Qed.


End Scenarios.

Section Codec.
Context {B : Builtins}.

Lemma hex_val_digit (d : N) : (d < 16)%N -> hex_val (hex_digit d) = Some d.
Proof.
  intros H.
  assert (K : In d (map N.of_nat (seq 0 16))).
  { replace d with (N.of_nat (N.to_nat d)) by apply N2Nat.id.
    apply in_map, in_seq. lia. }
  vm_compute in K.
  repeat (destruct K as [K|K]; [subst d; reflexivity|]). destruct K.
Qed.

Lemma hex_digit_printable (d : N) : (d < 16)%N -> printable (hex_digit d).
Proof.
  intros H. unfold hex_digit, printable.
  destruct (N.ltb_spec d 10); lia.
Qed.

Lemma decode_hex4 (n : N) :
  (n < 65536)%N ->
  decode_u4 (hex_digit (n / 4096 mod 16)) (hex_digit (n / 256 mod 16))
    (hex_digit (n / 16 mod 16)) (hex_digit (n mod 16)) = Some n.
Proof.
  intros H. unfold decode_u4.
  rewrite !hex_val_digit by (apply N.mod_lt; discriminate).
  f_equal. zify. Z.to_euclidean_division_equations. lia.
Qed.

Lemma lor_shiftl_add (a b n : N) :
  (b < 2 ^ n)%N -> N.lor (N.shiftl a n) b = (a * 2 ^ n + b)%N.
Proof.
  intros H.
  assert (L : N.land (N.shiftl a n) b = 0%N).
  { apply N.bits_inj. intros i. rewrite N.land_spec, N.bits_0.
    destruct (N.lt_ge_cases i n) as [Lt|Ge].
    - rewrite N.shiftl_spec_low by exact Lt. reflexivity.
    - rewrite <- (N.mod_small b (2 ^ n)) by exact H.
      rewrite N.mod_pow2_bits_high by exact Ge. apply andb_false_r. }
  rewrite <- N.lxor_lor by exact L.
  rewrite <- N.add_nocarry_lxor by exact L.
  rewrite N.shiftl_mul_pow2. reflexivity.
Qed.

(** The surrogate pair [json.dumps] writes for a character above the
    basic plane, and what [scanstring] makes of it. *)
Lemma surrogates_of (c : N) :
  (65536 <= c < 1114112)%N ->
  let n := (c - 65536)%N in
  let hi := N.lor 55296 (N.land (N.shiftr n 10) 1023) in
  let lo := N.lor 56320 (N.land n 1023) in
  (hi < 65536)%N /\ (lo < 65536)%N
  /\ is_high_surrogate hi = true /\ is_low_surrogate lo = true
  /\ is_low_surrogate hi = false
  /\ join_surrogates hi lo = c.
Proof.
  intros H n hi lo.
  assert (Hn : (n < 1048576)%N) by (subst n; lia).
  assert (Ehi : hi = (55296 + n / 1024)%N).
  { subst hi. change 1023%N with (N.ones 10). rewrite N.land_ones.
    rewrite N.shiftr_div_pow2. change (2 ^ 10)%N with 1024%N.
    change 55296%N with (N.shiftl 54 10).
    rewrite lor_shiftl_add by (apply N.mod_lt; discriminate).
    change (2 ^ 10)%N with 1024%N.
    rewrite N.mod_small; [reflexivity|].
    apply N.Div0.div_lt_upper_bound. lia. }
  assert (Elo : lo = (56320 + n mod 1024)%N).
  { subst lo. change 1023%N with (N.ones 10). rewrite N.land_ones.
    change 56320%N with (N.shiftl 55 10).
    rewrite lor_shiftl_add by (apply N.mod_lt; discriminate).
    reflexivity. }
  assert (Q : (n / 1024 < 1024)%N)
    by (apply N.Div0.div_lt_upper_bound; lia).
  assert (R : (n mod 1024 < 1024)%N) by (apply N.mod_lt; discriminate).
  unfold is_high_surrogate, is_low_surrogate, join_surrogates.
  rewrite Ehi, Elo.
  rewrite (N.add_comm 55296), (N.add_comm 56320), !N.add_sub.
  rewrite lor_shiftl_add by exact R. change (2 ^ 10)%N with 1024%N.
  clearbody hi lo. set (q := (n / 1024)%N) in *. set (r := (n mod 1024)%N) in *.
  assert (D : n = (1024 * q + r)%N) by (apply N.div_mod; discriminate).
  clearbody q r.
  repeat split; try lia.
  - apply andb_true_iff. split; apply N.leb_le; lia.
  - apply andb_true_iff. split; apply N.leb_le; lia.
  - apply andb_false_iff. left. apply N.leb_gt. lia.
Qed.

Lemma scan_plain (c : N) (r : pystr) :
  (c =? 34)%N = false -> (c =? 92)%N = false -> (c <? 32)%N = false ->
  scanstring (c :: r) = push c (scanstring r).
Proof. intros H1 H2 H3. cbn [scanstring]. rewrite H1, H2, H3. reflexivity. Qed.

Lemma scan_short (e x : N) (r : pystr) :
  (e =? 117)%N = false -> unescape e = Some x ->
  scanstring (92%N :: e :: r) = push x (scanstring r).
Proof. intros H U. cbn [scanstring]. rewrite H, U. reflexivity. Qed.

Lemma scan_u_single (h1 h2 h3 h4 uni : N) (r : pystr) :
  decode_u4 h1 h2 h3 h4 = Some uni ->
  is_high_surrogate uni && low_escape_ahead r = false ->
  scanstring (92%N :: 117%N :: h1 :: h2 :: h3 :: h4 :: r)
  = push uni (scanstring r).
Proof.
  intros D H. cbn [scanstring]. rewrite D.
  destruct r as [|b [|u [|l1 [|l2 [|l3 [|l4 r']]]]]]; try reflexivity.
  unfold low_escape_ahead in H.
  destruct (is_high_surrogate uni); [|reflexivity].
  destruct (b =? 92)%N; [|reflexivity].
  destruct (u =? 117)%N; [|reflexivity].
  destruct (decode_u4 l1 l2 l3 l4) as [x|]; [|discriminate].
  simpl in H. rewrite H. reflexivity.
Qed.

Lemma scan_u_pair (h1 h2 h3 h4 l1 l2 l3 l4 hi lo : N) (r : pystr) :
  decode_u4 h1 h2 h3 h4 = Some hi -> is_high_surrogate hi = true ->
  decode_u4 l1 l2 l3 l4 = Some lo -> is_low_surrogate lo = true ->
  scanstring (92%N :: 117%N :: h1 :: h2 :: h3 :: h4
              :: 92%N :: 117%N :: l1 :: l2 :: l3 :: l4 :: r)
  = push (join_surrogates hi lo) (scanstring r).
Proof.
  intros D1 H1 D2 H2. cbn [scanstring]. rewrite D1, H1, D2, H2. reflexivity.
Qed.

Lemma ahead_head (b : N) (s : pystr) :
  (b =? 92)%N = false -> low_escape_ahead (b :: s) = false.
Proof.
  intros H. destruct s as [|u [|l1 [|l2 [|l3 [|l4 r']]]]]; try reflexivity.
  unfold low_escape_ahead. rewrite H. reflexivity.
Qed.

Lemma ahead_second (u : N) (s : pystr) :
  (u =? 117)%N = false -> low_escape_ahead (92%N :: u :: s) = false.
Proof.
  intros H. destruct s as [|l1 [|l2 [|l3 [|l4 r']]]]; try reflexivity.
  unfold low_escape_ahead. rewrite H. reflexivity.
Qed.

Lemma ahead_u (h1 h2 h3 h4 x : N) (s : pystr) :
  decode_u4 h1 h2 h3 h4 = Some x -> is_low_surrogate x = false ->
  low_escape_ahead (92%N :: 117%N :: h1 :: h2 :: h3 :: h4 :: s) = false.
Proof. intros D L. unfold low_escape_ahead. rewrite D, L. reflexivity. Qed.

Lemma escape_char_case (c : N) : escape_case c (escape_char c).
Proof.
  unfold escape_char, BACKSLASH, QUOTE.
  destruct (N.eqb_spec c 92) as [->|N1];
    [apply escape_short; try reflexivity; unfold printable; lia|].
  destruct (N.eqb_spec c 34) as [->|N2];
    [apply escape_short; try reflexivity; unfold printable; lia|].
  destruct (N.eqb_spec c 8) as [->|N3];
    [apply escape_short; try reflexivity; unfold printable; lia|].
  destruct (N.eqb_spec c 12) as [->|N4];
    [apply escape_short; try reflexivity; unfold printable; lia|].
  destruct (N.eqb_spec c 10) as [->|N5];
    [apply escape_short; try reflexivity; unfold printable; lia|].
  destruct (N.eqb_spec c 13) as [->|N6];
    [apply escape_short; try reflexivity; unfold printable; lia|].
  destruct (N.eqb_spec c 9) as [->|N7];
    [apply escape_short; try reflexivity; unfold printable; lia|].
  destruct (N.leb_spec 32 c) as [L|L]; cbn [andb].
  - destruct (N.leb_spec c 126) as [U|U].
    + apply escape_plain; [apply N.eqb_neq; exact N2|apply N.eqb_neq; exact N1
                          |unfold printable; lia].
    + destruct (N.ltb_spec c 65536); [apply escape_u|apply escape_pair];
        assumption.
  - destruct (N.ltb_spec c 65536); [apply escape_u; assumption|lia].
Qed.

Lemma u_escape_printable (n : N) : Forall printable (u_escape n).
Proof.
  unfold u_escape, hex4, BACKSLASH.
  repeat apply Forall_cons; try apply Forall_nil;
    try (unfold printable; lia);
    apply hex_digit_printable, N.mod_lt; discriminate.
Qed.

(** [json.dumps] writes printable ASCII only. *)
Lemma escape_char_printable (c : N) : Forall printable (escape_char c).
Proof.
  destruct (escape_char_case c) as [e _ _ P|_ _ P|_|_].
  - apply Forall_cons; [unfold printable; lia|].
    apply Forall_cons; [exact P|apply Forall_nil].
  - apply Forall_cons; [exact P|apply Forall_nil].
  - apply u_escape_printable.
  - apply Forall_app. split; apply u_escape_printable.
Qed.

Lemma escape_printable (s : pystr) : Forall printable (escape s).
Proof.
  induction s as [|c t IH]; simpl; [constructor|].
  apply Forall_app. split; [apply escape_char_printable|exact IH].
Qed.

(** [scanstring] reads one escaped character back, unless it is a high
    surrogate with the escape of a low one behind it. *)
Lemma escape_char_scan (c : N) (r : pystr) :
  (c < 1114112)%N ->
  is_high_surrogate c && low_escape_ahead r = false ->
  scanstring (escape_char c ++ r) = push c (scanstring r).
Proof.
  intros H A. destruct (escape_char_case c) as [e E U _|E1 E2 P|L|L].
  - apply scan_short; assumption.
  - apply scan_plain; try assumption. apply N.ltb_ge. unfold printable in P. lia.
  - unfold u_escape, hex4, BACKSLASH. cbn [app].
    apply scan_u_single; [apply decode_hex4; exact L|exact A].
  - destruct (surrogates_of (conj L H)) as (Hh & Hl & Ih & Il & _ & J).
    unfold u_escape, hex4, BACKSLASH. cbn [app].
    rewrite scan_u_pair
      with (hi := N.lor 55296 (N.land (N.shiftr (c - 65536) 10) 1023))
           (lo := N.lor 56320 (N.land (c - 65536) 1023));
      [rewrite J; reflexivity|apply decode_hex4; exact Hh|exact Ih
      |apply decode_hex4; exact Hl|exact Il].
Qed.

Lemma escape_char_ahead (c : N) (r : pystr) :
  (c < 1114112)%N -> is_low_surrogate c = false ->
  low_escape_ahead (escape_char c ++ r) = false.
Proof.
  intros H Low. destruct (escape_char_case c) as [e E U _|E1 E2 P|L|L].
  - apply ahead_second. exact E.
  - apply ahead_head. exact E2.
  - unfold u_escape, hex4, BACKSLASH. cbn [app].
    apply ahead_u with (x := c); [apply decode_hex4; exact L|exact Low].
  - destruct (surrogates_of (conj L H)) as (Hh & _ & _ & _ & Nl & _).
    unfold u_escape, hex4, BACKSLASH. cbn [app].
    eapply ahead_u; [apply decode_hex4; exact Hh|exact Nl].
Qed.

(** [scanstring] undoes [escape] on text without a surrogate pair. *)
Lemma scanstring_escape (s rest : pystr) :
  is_str s -> no_surrogate_pair s = true ->
  scanstring (escape s ++ QUOTE :: rest) = Some (s, rest).
Proof.
  induction s as [|c t IH]; intros V P.
  - reflexivity.
  - inversion V as [|c' t' Vc Vt]; subst.
    cbn [no_surrogate_pair] in P. apply andb_true_iff in P.
    destruct P as [P1 P2].
    cbn [escape]. rewrite <- app_assoc.
    rewrite escape_char_scan; [rewrite IH by assumption; reflexivity|exact Vc|].
    destruct (is_high_surrogate c) eqn:Hc; [|reflexivity]. cbn [andb].
    destruct t as [|c2 t'].
    + apply ahead_head. reflexivity.
    + cbn [andb] in P1. apply negb_true_iff in P1.
      cbn [escape]. rewrite <- app_assoc. apply escape_char_ahead.
      * inversion Vt. assumption.
      * exact P1.
Qed.

Lemma exec_request_text (s : pystr) :
  exec_request (VStr s) = REQUEST_HEAD ++ escape s ++ [QUOTE; 125%N].
Proof.
  unfold exec_request. cbn [json_dumps map join fst snd].
  unfold encode_basestring_ascii.
  change (escape (lit "cmd")) with (lit "cmd").
  change (escape (lit "exec")) with (lit "exec").
  change (escape (lit "command")) with (lit "command").
  unfold REQUEST_HEAD, QUOTE.
  repeat match goal with
         | |- context [lit ?x] =>
             let v := eval vm_compute in (lit x) in change (lit x) with v
         | |- context [wire ?x] =>
             let v := eval vm_compute in (wire x) in change (wire x) with v
         end.
  cbn [app]. rewrite <- !app_assoc. reflexivity.
Qed.

Lemma scan_once_string (fuel : nat) (t : pystr) :
  scan_once (S fuel) (34%N :: t) =
    match scanstring t with
    | Some (x, r) => Scanned (VStr x) r
    | None => Malformed
    end.
Proof. reflexivity. Qed.

Lemma scan_once_object (fuel : nat) (t r : pystr) (c : N) :
  skip_ws t = c :: r -> (c =? 125)%N = false ->
  scan_once (S fuel) (123%N :: t) = scan_members fuel (c :: r) [].
Proof. intros W C. cbn [scan_once]. rewrite W, C. reflexivity. Qed.

(** A member of an object, with another member or the closing brace after
    it. *)
Lemma scan_member (fuel : nat) (t r1 r2 r3 r4 : pystr) (acc : pydict)
    (key : pystr) (v : pyval) (d : N) :
  scanstring t = Some (key, r1) ->
  skip_ws r1 = 58%N :: r2 ->
  scan_once fuel (skip_ws r2) = Scanned v r3 ->
  skip_ws r3 = d :: r4 ->
  scan_members (S fuel) (34%N :: t) acc =
    if (d =? 125)%N then Scanned (VDict (dict_set acc key v)) r4
    else if (d =? 44)%N
         then scan_members fuel (skip_ws r4) (dict_set acc key v)
         else Malformed.
Proof.
  intros K W1 V W2. cbn [scan_members]. rewrite K, W1, V, W2. reflexivity.
Qed.

Lemma skip_ws_space (c : N) (t : pystr) :
  is_ws c = true -> skip_ws (c :: t) = skip_ws t.
Proof. intros H. cbn [skip_ws]. rewrite H. reflexivity. Qed.

Lemma skip_ws_head (c : N) (t : pystr) :
  is_ws c = false -> skip_ws (c :: t) = c :: t.
Proof. intros H. cbn [skip_ws]. rewrite H. reflexivity. Qed.

(** [json.loads] of a request line, given what [scanstring] makes of the
    escaped command. *)
Lemma loads_request (body s : pystr) :
  scanstring (body ++ [QUOTE; 125%N; NL]) = Some (s, [125%N; NL]) ->
  json_loads (REQUEST_HEAD ++ body ++ [QUOTE; 125%N; NL])
  = Ret (VDict [(lit "cmd", VStr (lit "exec")); (lit "command", VStr s)]).
Proof.
  intros Q. unfold json_loads.
  assert (L : 4 <= 2 * List.length (REQUEST_HEAD ++ body ++ [QUOTE; 125%N; NL])).
  { rewrite length_app. unfold REQUEST_HEAD. simpl. lia. }
  destruct (2 * List.length (REQUEST_HEAD ++ body ++ [QUOTE; 125%N; NL]))
    as [|[|[|[|fuel]]]]; try lia.
  clear L.
  let v := eval vm_compute in REQUEST_HEAD in change REQUEST_HEAD with v.
  cbn [app]. rewrite skip_ws_head by reflexivity.
  erewrite scan_once_object; [|reflexivity|reflexivity].
  erewrite scan_member; [|reflexivity|reflexivity|reflexivity|reflexivity].
  change (44 =? 125)%N with false. change (44 =? 44)%N with true. cbv iota.
  rewrite skip_ws_space, skip_ws_head by reflexivity.
  erewrite scan_member; cycle 1.
  - reflexivity.
  - reflexivity.
  - rewrite skip_ws_space, skip_ws_head by reflexivity.
    rewrite scan_once_string, Q. reflexivity.
  - reflexivity.
  - reflexivity.
Qed.

(** C4, as amended (protocol framing).  For a command that is text without
    a high surrogate directly followed by a low one, the line [exec] writes
    to the child is the request followed by one newline, the request holds
    printable ASCII only and so no newline, and [json.loads] of the line is
    the object with [cmd] equal to [exec] and [command] equal to the
    command. *)
Theorem request_line_round_trip (s : pystr) :
  is_str s ->
  no_surrogate_pair s = true ->
  json_loads (exec_request (VStr s) ++ [NL])
  = Ret (VDict [(lit "cmd", VStr (lit "exec")); (lit "command", VStr s)])
  /\ Forall printable (exec_request (VStr s))
  /\ ~ In NL (exec_request (VStr s))
  /\ forall (w : world) (c : child),
       process (vm w) = Some c ->
       exists err,
         trace (snd (exec (VStr s) w)) =
           trace w ++ [Write (exec_request (VStr s) ++ [NL]) err].
Proof.
  intros V P.
  assert (F : Forall printable (exec_request (VStr s))).
  { rewrite exec_request_text. apply Forall_app. split.
    - unfold REQUEST_HEAD. apply Forall_forall. intros x I.
      vm_compute in I.
      repeat (destruct I as [I|I]; [subst x; unfold printable; lia|]).
      destruct I.
    - apply Forall_app. split; [apply escape_printable|].
      repeat apply Forall_cons; try apply Forall_nil;
        unfold printable, QUOTE; lia. }
  split; [|split; [exact F|split]].
  - rewrite exec_request_text, <- !app_assoc. cbn [app].
    apply loads_request, scanstring_escape; assumption.
  - intros I. rewrite Forall_forall in F. apply F in I.
    unfold printable, NL in I. lia.
  - intros w c Pc. eexists. apply exec_trace. exact Pc.
Qed.

End Codec.

Section Fuel.

Lemma skip_ws_length (s : pystr) : List.length (skip_ws s) <= List.length s.
Proof.
  induction s as [|c t IH]; cbn [skip_ws]; [lia|].
  destruct (is_ws c); cbn [List.length]; lia.
Qed.

Lemma push_some (c : N) (o : option (pystr * pystr)) (x r : pystr) :
  push c o = Some (x, r) -> exists x', o = Some (x', r).
Proof.
  destruct o as [[t rest]|]; cbn [push]; intros H; inversion H; eauto.
Qed.

(** [scanstring] returns a part of the text it was given. *)
Lemma scanstring_length (n : nat) :
  forall (s x r : pystr),
    List.length s <= n -> scanstring s = Some (x, r) ->
    List.length r <= List.length s.
Proof.
  induction n as [|n IH]; intros s x r L H.
  - destruct s; [discriminate|cbn [List.length] in L; lia].
  - destruct s as [|c s1]; [discriminate|]. cbn [scanstring] in H.
    repeat match type of H with
           | context [if ?b then _ else _] => destruct b
           | context [match ?l with [] => _ | _ :: _ => _ end] =>
               destruct l
           | context [match ?o with Some _ => _ | None => _ end] =>
               destruct o
           end;
      try discriminate;
      try (inversion H; subst; cbn [List.length]; lia);
      (destruct (push_some _ _ H) as [x' H'];
       apply IH in H'; cbn [List.length] in *; lia).
Qed.

Lemma scanstring_shorter (s x r : pystr) :
  scanstring s = Some (x, r) -> List.length r <= List.length s.
Proof. apply scanstring_length with (n := List.length s). apply le_n. Qed.

Lemma strip_prefix_length (p : pystr) :
  forall s r, strip_prefix p s = Some r -> List.length r <= List.length s.
Proof.
  induction p as [|x p IH]; intros s r H.
  - inversion H. lia.
  - destruct s as [|y s]; [discriminate|]. cbn [strip_prefix] in H.
    destruct (x =? y)%N; [|discriminate].
    apply IH in H. cbn [List.length]. lia.
Qed.

Lemma digits_length (s : pystr) :
  List.length (snd (digits s)) <= List.length s.
Proof.
  induction s as [|c t IH]; cbn [digits]; [cbn; lia|].
  destruct (is_digit c); [|cbn; lia].
  destruct (digits t) as [d r]. cbn [snd List.length] in *. lia.
Qed.

Lemma match_number_length (s : pystr) (v : pyval) (r : pystr) :
  match_number s = Some (v, r) -> List.length r <= List.length s.
Proof.
  unfold match_number. intros H.
  repeat match type of H with
         | context [digits ?t] =>
             let E := fresh "E" in
             let K := fresh "K" in
             pose proof (digits_length t) as K;
             destruct (digits t) as [? ?] eqn:E; cbn [snd] in K
         | context [if ?b then _ else _] => destruct b
         | context [match ?l with [] => _ | _ :: _ => _ end] => destruct l
         | context [let (_, _) := ?p in _] => destruct p
         end;
    try discriminate;
    repeat match goal with
           | E : (_, _) = (_, _) |- _ => inversion E; clear E; subst
           end;
    try (inversion H; subst; cbn [List.length] in *; lia).
Qed.

Ltac scan_split IHo :=
  match goal with
  | |- context [match scanstring ?t with _ => _ end] =>
      let E := fresh "E" in
      destruct (scanstring t) as [[? ?]|] eqn:E;
      [apply scanstring_shorter in E|]
  | |- context [match skip_ws ?t with _ => _ end] =>
      let K := fresh "K" in
      pose proof (skip_ws_length t) as K; destruct (skip_ws t)
  | |- context [match strip_prefix ?p ?s with _ => _ end] =>
      let E := fresh "E" in
      destruct (strip_prefix p s) eqn:E; [apply strip_prefix_length in E|]
  | |- context [match match_number ?s with _ => _ end] =>
      let E := fresh "E" in
      destruct (match_number s) as [[? ?]|] eqn:E;
      [apply match_number_length in E|]
  | |- context [match scan_once ?f ?s with _ => _ end] =>
      let E := fresh "E" in
      destruct (scan_once f s) eqn:E; [apply IHo in E| |]
  | |- context [if ?b then _ else _] => destruct b
  end.

Ltac note_skips :=
  repeat match goal with
         | |- context [skip_ws ?x] =>
             lazymatch goal with
             | _ : List.length (skip_ws x) <= List.length x |- _ => fail
             | _ => pose proof (skip_ws_length x)
             end
         | _ : context [skip_ws ?x] |- _ =>
             lazymatch goal with
             | _ : List.length (skip_ws x) <= List.length x |- _ => fail
             | _ => pose proof (skip_ws_length x)
             end
         end.

Ltac by_lengths := note_skips; cbn [List.length] in *; lia.

Lemma scan_fuel (fuel : nat) :
  forall s : pystr,
    (forall v r, scan_once fuel s = Scanned v r ->
                 List.length r <= List.length s)
    /\ (2 * List.length s + 1 <= fuel -> scan_once fuel s <> Exhausted)
    /\ (forall acc v r, scan_members fuel s acc = Scanned v r ->
                        List.length r <= List.length s)
    /\ (forall acc, 2 * List.length s + 1 <= fuel ->
                    scan_members fuel s acc <> Exhausted)
    /\ (forall acc v r, scan_items fuel s acc = Scanned v r ->
                        List.length r <= List.length s)
    /\ (forall acc, 2 * List.length s + 2 <= fuel ->
                    scan_items fuel s acc <> Exhausted).
Proof.
  induction fuel as [|fuel IH]; intros s.
  - repeat split; intros; try discriminate; lia.
  - pose proof (fun s => proj1 (IH s)) as Lo.
    pose proof (fun s => proj1 (proj2 (IH s))) as Eo.
    pose proof (fun s => proj1 (proj2 (proj2 (IH s)))) as Lm.
    pose proof (fun s => proj1 (proj2 (proj2 (proj2 (IH s))))) as Em.
    pose proof (fun s => proj1 (proj2 (proj2 (proj2 (proj2 (IH s)))))) as Li.
    pose proof (fun s => proj2 (proj2 (proj2 (proj2 (proj2 (IH s)))))) as Ei.
    clear IH.
    split; [|split; [|split; [|split; [|split]]]].
    + intros v r. cbn [scan_once]. destruct s as [|c t]; [discriminate|].
      repeat scan_split Lo; intros H; try discriminate;
        try (inversion H; subst; cbn [List.length] in *; lia);
        try (apply Lm in H; cbn [List.length] in *; lia);
        try (apply Li in H; cbn [List.length] in *; lia).
    + intros F. cbn [scan_once]. destruct s as [|c t]; [discriminate|].
      repeat scan_split Lo; try discriminate;
        try (apply Em; cbn [List.length] in *; lia);
        try (apply Ei; cbn [List.length] in *; lia).
    + intros acc v r. cbn [scan_members]. destruct s as [|c t]; [discriminate|].
      repeat scan_split Lo; intros H; try discriminate;
        try (inversion H; subst; by_lengths);
        try (apply Lm in H; by_lengths).
    + intros acc F. cbn [scan_members]. destruct s as [|c t]; [discriminate|].
      repeat scan_split Lo; try discriminate;
        try (apply Em; by_lengths);
        try (exfalso; eapply Eo; [|eassumption]; by_lengths).
    + intros acc v r. cbn [scan_items].
      repeat scan_split Lo; intros H; try discriminate;
        try (inversion H; subst; by_lengths);
        try (apply Li in H; by_lengths).
    + intros acc F. cbn [scan_items].
      repeat scan_split Lo; try discriminate;
        try (apply Ei; by_lengths);
        try (exfalso; eapply Eo; [|eassumption]; by_lengths).
Qed.

(** Fuel is never what ends a scan: one more than twice the length of the
    text is enough for [scan_once], as [json_loads] gives it. *)
Lemma scan_once_fuel (s : pystr) :
  scan_once (S (2 * List.length s)) (skip_ws s) <> Exhausted.
Proof.
  apply scan_fuel. pose proof (skip_ws_length s). lia.
Qed.

End Fuel.

Section Startup.
Context {B : Builtins}.

(** The wait ends in an error when the output ends before [READY]. *)
Lemma wait_ready_eof (junk : list pystr) :
  forall (fuel : nat) (w : world) (c : child),
    process (vm w) = Some c ->
    stdout c = map (@inr exn pystr) junk ->
    forallb ignored junk = true ->
    List.length junk < fuel ->
    wait_ready fuel w = (Raise UNEXPECTED_EXIT, with_process (Some (read_to [] c)) w).
Proof.
  induction junk as [|line junk IH]; intros fuel w c P O I F;
    (destruct fuel as [|fuel]; [inversion F|]); simpl in O; cbn [wait_ready].
  - unfold bind, readline. rewrite P, O.
    destruct w as [[path p] d cs k ep t]. destruct c as [out inp ex].
    simpl in P, O. subst p out. reflexivity.
  - unfold bind. erewrite readline_next by eassumption.
    simpl in I. apply andb_true_iff in I. destruct I as [I1 I2].
    unfold ignored in I1. destruct line as [|x line]; [discriminate|].
    apply negb_true_iff in I1. rewrite I1.
    rewrite IH with (c := read_to (map (@inr exn pystr) junk) c);
      [reflexivity|reflexivity|reflexivity|exact I2|].
    simpl in F. lia.
Qed.

(** The wait ends within one read per entry of the child's output and one
    more: past that, fuel makes no difference. *)
Lemma wait_ready_fuel (out : list (exn + pystr)) :
  forall (w : world) (c : child) (fuel fuel' : nat),
    process (vm w) = Some c ->
    stdout c = out ->
    List.length out < fuel ->
    List.length out < fuel' ->
    wait_ready fuel w = wait_ready fuel' w.
Proof.
  induction out as [|entry out IH]; intros w c fuel fuel' P O F F';
    (destruct fuel as [|fuel]; [inversion F|]);
    (destruct fuel' as [|fuel']; [inversion F'|]);
    cbn [wait_ready]; unfold bind, readline; rewrite P, O.
  - reflexivity.
  - destruct entry as [e|[|x line]]; try reflexivity.
    destruct (str_eqb (strip (x :: line)) (lit "READY")); [reflexivity|].
    apply IH with (c := read_to out c); [reflexivity|reflexivity| |];
      simpl in F, F'; lia.
Qed.


Lemma start_eof (w : world) (c : child) (cs : list (exn + child))
    (junk : list pystr) :
  children w = inr c :: cs ->
  stdout c = map (@inr exn pystr) junk ->
  forallb ignored junk = true ->
  start w =
    (Raise UNEXPECTED_EXIT,
     with_process (Some (read_to [] c))
       (with_children cs
          (logged (Popen [lit "node"; bridge_path (vm w)])
             (logged (PrintErr (lit "Booting VM...")) w)))).
Proof.
  intros K O I. unfold start. unfold_monad. unfold spawn.
  cbn [children logged]. rewrite K.
  erewrite wait_ready_eof; [reflexivity|reflexivity|exact O|exact I|].
  rewrite O, length_map. lia.
Qed.

(** X2.
    [start] on a child whose output ends before any line strips to
    [READY]: it raises [RuntimeError("VM process exited unexpectedly")]
    without printing [VM Ready.], and the client keeps the handle of the
    child it spawned. *)
Theorem start_fails_at_end_of_output (w : world) (c : child)
    (cs : list (exn + child)) (junk : list pystr) :
  children w = inr c :: cs ->
  stdout c = map (@inr exn pystr) junk ->
  forallb ignored junk = true ->
  fst (start w) = Raise UNEXPECTED_EXIT
  /\ process (vm (snd (start w))) = Some (read_to [] c)
  /\ trace (snd (start w)) = trace w ++ boot_events w.
Proof.
  intros K O I.
  rewrite start_eof with (c := c) (cs := cs) (junk := junk) by assumption.
  repeat split. cbn. rewrite <- !app_assoc. reflexivity.
Qed.

Lemma wait_ready_reads (out : list (exn + pystr)) :
  forall (w : world) (c : child) (fuel : nat),
    process (vm w) = Some c ->
    stdout c = out ->
    List.length out < fuel ->
    fst (wait_ready fuel w) = Raise RecursionError ->
    In (inl RecursionError) out.
Proof.
  induction out as [|entry out IH]; intros w c fuel P O F;
    (destruct fuel as [|fuel]; [inversion F|]);
    cbn [wait_ready]; unfold bind, readline; rewrite P, O.
  - discriminate.
  - destruct entry as [e|[|x line]]; cbn [fst].
    + intros E. left. congruence.
    + discriminate.
    + destruct (str_eqb (strip (x :: line)) (lit "READY")); [discriminate|].
      intros E. right.
      apply IH with (w := with_process (Some (read_to out c)) w)
                    (c := read_to out c) (fuel := fuel);
        [reflexivity|reflexivity|simpl in F; lia|exact E].
Qed.

(** X3.
    The wait loop of [start] ends: on a child whose output has [n] entries
    it makes [n + 1] reads at most, so the bound [start] runs it with is
    never what stops it. *)
Theorem start_wait_terminates (w : world) (c : child) (fuel : nat) :
  process (vm w) = Some c ->
  List.length (stdout c) < fuel ->
  wait_ready fuel w = wait_ready (S (List.length (stdout c))) w
  /\ (fst (wait_ready fuel w) = Raise RecursionError ->
      In (inl RecursionError) (stdout c)).
Proof.
  intros P F. split.
  - apply wait_ready_fuel with (out := stdout c) (c := c);
      [exact P|reflexivity|exact F|lia].
  - apply wait_ready_reads with (c := c); [exact P|reflexivity|exact F].
Qed.

End Startup.

Section ExecEdges.
Context {B : Builtins}.

(** X5.
    [exec] on a child that takes the request and then closes its output:
    the request has been written when [RuntimeError("VM closed
    connection")] is raised, and the client still holds the child. *)
Theorem exec_closed_connection (w : world) (c : child) (command : pyval) :
  process (vm w) = Some c ->
  takes_write c = true ->
  stdout c = [] ->
  exec command w =
    (Raise (RuntimeError (lit "VM closed connection")),
     after_exchange (exec_request command ++ [NL]) c [] w).
Proof.
  intros P W O. unfold exec. unfold_monad. rewrite P.
  rewrite write_taken with (c := c) by assumption.
  unfold readline. cbn [process vm with_process with_vm logged stdout].
  rewrite O. reflexivity.
Qed.

(** X6.
    [exec] on a child whose pipe refuses the request: the error of the
    write is what [exec] raises, and no line of the child's output is
    read. *)
Theorem exec_write_refused (w : world) (c : child) (command : pyval)
    (e : exn) (rest : list (option exn)) :
  process (vm w) = Some c ->
  stdin c = Some e :: rest ->
  exec command w =
    (Raise e,
     logged (Write (exec_request command ++ [NL]) (Some e))
       (with_process
          (Some {| stdout := stdout c; stdin := rest; exits := exits c |}) w)).
Proof.
  intros P I. unfold exec. unfold_monad. rewrite P.
  unfold write. rewrite P, I. reflexivity.
Qed.

Lemma skip_ws_blank (line : pystr) :
  forallb is_ws line = true -> skip_ws line = [].
Proof.
  induction line as [|x line IH]; simpl; [reflexivity|].
  intros H. apply andb_true_iff in H. destruct H as [H1 H2].
  rewrite H1. apply IH, H2.
Qed.

Lemma loads_blank (line : pystr) :
  forallb is_ws line = true -> json_loads line = Raise JSONDecodeError.
Proof.
  intros H. unfold json_loads. rewrite (skip_ws_blank line H).
  destruct line as [|x line]; [reflexivity|].
  simpl in H. apply andb_true_iff in H. destruct H as [H _].
  assert (K : x = 32%N \/ x = 9%N \/ x = 10%N \/ x = 13%N).
  { unfold is_ws in H. rewrite !orb_true_iff, !N.eqb_eq in H. tauto. }
  destruct K as [-> | [-> | [-> | ->]]]; reflexivity.
Qed.

(** X7.
    A line of white space only (a bare newline, say) is not the end of the
    output: [exec] hands it to [json.loads] and raises [JSONDecodeError]. *)
Theorem exec_blank_line (w : world) (c : child) (command : pyval)
    (line : pystr) (rest : list (exn + pystr)) :
  process (vm w) = Some c ->
  takes_write c = true ->
  stdout c = inr line :: rest ->
  line <> [] ->
  forallb is_ws line = true ->
  exec command w =
    (Raise JSONDecodeError,
     after_exchange (exec_request command ++ [NL]) c rest w).
Proof.
  intros P W O L Bl.
  rewrite exec_exchange with (c := c) (line := line) (rest := rest)
    by assumption.
  unfold reply_outcome. rewrite loads_blank by exact Bl. reflexivity.
Qed.

(** X8.
    A response that is JSON but no object (a list, a string, a number,
    [null]) has no [get]: [exec] raises [AttributeError]. *)
Theorem exec_reply_not_an_object (w : world) (c : child) (command : pyval)
    (line : pystr) (rest : list (exn + pystr)) (v : pyval) :
  process (vm w) = Some c ->
  takes_write c = true ->
  stdout c = inr line :: rest ->
  line <> [] ->
  json_loads line = Ret v ->
  (forall d, v <> VDict d) ->
  exec command w =
    (Raise AttributeError,
     after_exchange (exec_request command ++ [NL]) c rest w).
Proof.
  intros P W O L J N.
  rewrite exec_exchange with (c := c) (line := line) (rest := rest)
    by assumption.
  unfold reply_outcome. rewrite J.
  destruct v; try reflexivity. destruct (N d). reflexivity.
Qed.

(** X9.
    A response with [status] equal to [ok] and no [result] member:
    [exec] raises [KeyError('result')]. *)
Theorem exec_ok_without_result (w : world) (c : child) (command : pyval)
    (line : pystr) (rest : list (exn + pystr)) (resp : pydict) :
  process (vm w) = Some c ->
  takes_write c = true ->
  stdout c = inr line :: rest ->
  line <> [] ->
  json_loads line = Ret (VDict resp) ->
  dict_get resp (lit "status") = Some (VStr (lit "ok")) ->
  dict_get resp (lit "result") = None ->
  exec command w =
    (Raise (KeyError (lit "result")),
     after_exchange (exec_request command ++ [NL]) c rest w).
Proof.
  intros P W O L J S R.
  rewrite exec_exchange with (c := c) (line := line) (rest := rest)
    by assumption.
  unfold reply_outcome. rewrite J. cbn [and_then get]. rewrite S.
  cbn [and_then eq_str]. rewrite str_eqb_refl. cbn [getitem]. rewrite R.
  reflexivity.
Qed.


End ExecEdges.

Section RunEdges.
Context {B : Builtins}.

Lemma attempt_start_raises (w w1 : world) (e : exn) :
  start w = (Raise e, w1) -> attempt w = (Raise e, w1).
Proof. intros S. unfold attempt. unfold_monad. rewrite S. reflexivity. Qed.

Lemma attempt_with_credential (w w1 : world) (k : N) (key : pystr) :
  OPENAI_API_KEY w = Some (k :: key) ->
  start w = (Ret tt, w1) ->
  attempt w = (_ <- agent_steps MAX_STEPS [User PROMPT] ;; ret tt) w1.
Proof.
  intros K S. unfold attempt. unfold bind at 1. rewrite S.
  destruct (emits_start deaf_is_create w S) as [E _].
  unfold bind at 1. unfold getenv_api_key. rewrite E, K. reflexivity.
Qed.



Lemma agent_steps_create_raises (budget : nat) (messages : list message)
    (w : world) (e : exn) (ep : list (exn + completion)) :
  endpoint w = inl e :: ep ->
  agent_steps (S budget) messages w =
    (Raise e, with_endpoint ep (logged (Create messages) w)).
Proof.
  intros E. cbn [agent_steps]. unfold bind at 1. unfold create.
  cbn [endpoint logged]. rewrite E. reflexivity.
Qed.


End RunEdges.

Section LoopEdges.
Context {B : Builtins}.

Lemma call_tools_others (tcs : list tool_call) (messages : list message)
    (w : world) :
  forallb other_tool tcs = true ->
  call_tools tcs messages w = (Ret messages, w).
Proof.
  induction tcs as [|tc tcs IH]; simpl; intros H; [reflexivity|].
  apply andb_true_iff in H. destruct H as [H1 H2].
  unfold bind, call_tool. unfold other_tool in H1.
  apply negb_true_iff in H1. rewrite H1.
  apply IH, H2.
Qed.

Lemma agent_step_others (budget : nat) (w : world) (messages : list message)
    (r : completion) (ep : list (exn + completion)) :
  endpoint w = inr r :: ep ->
  other_tools_only r = true ->
  agent_steps (S budget) messages w =
    agent_steps budget (messages ++ first_message r)
      (with_endpoint ep (logged (Create messages) w)).
Proof.
  intros E O. cbn [agent_steps]. unfold bind at 1.
  rewrite create_next with (r := r) (rest := ep) by exact E.
  unfold other_tools_only in O. unfold first_message.
  destruct (choices r) as [|m others]; [discriminate|].
  destruct (tool_calls m) as [[|tc tcs]|]; try discriminate.
  unfold bind at 1. rewrite call_tools_others by exact O. reflexivity.
Qed.

Lemma count_creates (messages : list message) (replies : list completion) :
  count is_create (creates messages replies) = List.length replies.
Proof.
  revert messages. induction replies as [|r rs IH]; intros messages;
    [reflexivity|].
  cbn [creates]. change (Create messages :: ?l) with ([Create messages] ++ l).
  rewrite count_app, IH. reflexivity.
Qed.

(** X14.
    A loop that runs out of budget ends without a word: when each of the
    replies it gets asks for tools other than the shell, a loop with a
    budget of as many steps calls the endpoint that many times, adds each
    reply's message to the conversation, prints nothing, touches no child,
    and returns the conversation; a further reply is left unread. *)
Theorem budget_spent_in_silence (replies : list completion) :
  forall (messages : list message) (w : world)
         (ep : list (exn + completion)),
    forallb other_tools_only replies = true ->
    endpoint w = map (@inr exn completion) replies ++ ep ->
    fst (agent_steps (List.length replies) messages w)
    = Ret (messages ++ flat_map first_message replies)
    /\ trace (snd (agent_steps (List.length replies) messages w))
       = trace w ++ creates messages replies
    /\ count is_create (creates messages replies) = List.length replies
    /\ endpoint (snd (agent_steps (List.length replies) messages w)) = ep
    /\ vm (snd (agent_steps (List.length replies) messages w)) = vm w.
Proof.
  induction replies as [|r rs IH]; intros messages w ep O E.
  - simpl in E. cbn. rewrite !app_nil_r. repeat split. exact E.
  - cbn [forallb] in O. apply andb_true_iff in O. destruct O as [O1 O2].
    cbn [map app] in E. cbn [List.length].
    rewrite agent_step_others
      with (r := r) (ep := map (@inr exn completion) rs ++ ep)
      by assumption.
    destruct (IH (messages ++ first_message r)
                (with_endpoint (map (@inr exn completion) rs ++ ep)
                   (logged (Create messages) w))
                ep O2 eq_refl) as (I1 & I2 & _ & I4 & I5).
    split; [|split; [|split; [apply count_creates|split]]].
    + rewrite I1. cbn [flat_map]. rewrite <- app_assoc. reflexivity.
    + rewrite I2. cbn [creates trace with_endpoint logged].
      rewrite <- app_assoc. reflexivity.
    + exact I4.
    + rewrite I5. reflexivity.
Qed.

Lemma call_tool_extends (tc : tool_call) (messages messages' : list message)
    (w w' : world) :
  call_tool tc messages w = (Ret messages', w') ->
  exists tail, messages' = messages ++ tail.
Proof.
  unfold call_tool. unfold_monad.
  destruct (str_eqb (fn_name tc) TOOL_NAME).
  - repeat match goal with
           | |- context [match ?x with Ret _ => _ | Raise _ => _ end] =>
               destruct x
           | |- context [let (_, _) := ?x in _] => destruct x
           end;
      intros H; inversion H; eexists; reflexivity.
  - intros H. inversion H. exists []. rewrite app_nil_r. reflexivity.
Qed.

Lemma call_tools_extends (tcs : list tool_call) :
  forall (messages messages' : list message) (w w' : world),
    call_tools tcs messages w = (Ret messages', w') ->
    exists tail, messages' = messages ++ tail.
Proof.
  induction tcs as [|tc tcs IH]; intros messages messages' w w'; simpl.
  - intros H. inversion H. exists []. rewrite app_nil_r. reflexivity.
  - unfold bind. destruct (call_tool tc messages w) as [[m1|e] w1] eqn:E;
      [|discriminate].
    intros H. destruct (call_tool_extends _ _ _ E) as [t1 ->].
    destruct (IH _ _ _ _ H) as [t2 ->].
    exists (t1 ++ t2). rewrite app_assoc. reflexivity.
Qed.

(** X15.
    The conversation only grows: whatever the endpoint and the child do,
    the list the loop returns starts with the list it was given. *)
Theorem conversation_append_only (budget : nat) :
  forall (messages messages' : list message) (w w' : world),
    agent_steps budget messages w = (Ret messages', w') ->
    exists tail, messages' = messages ++ tail.
Proof.
  induction budget as [|budget IH]; intros messages messages' w w'.
  - intros H. inversion H. exists []. rewrite app_nil_r. reflexivity.
  - cbn [agent_steps]. unfold bind at 1.
    destruct (create messages w) as [[r|e] w1]; [|discriminate].
    destruct (choices r) as [|m others]; [discriminate|].
    assert (Q : (emit (Print (NL :: lit "Agent Response:")) ;;
                 print_stdout match content m with
                              | Some text => text
                              | None => lit "None"
                              end ;;
                 ret (messages ++ [Assistant m])) w1 = (Ret messages', w') ->
                exists tail, messages' = messages ++ tail).
    { unfold bind, emit, print_stdout, ret, raise.
      destruct (encodable _); intros H; inversion H. eexists. reflexivity. }
    destruct (tool_calls m) as [[|tc tcs]|]; try exact Q.
    unfold bind at 1.
    destruct (call_tools (tc :: tcs) (messages ++ [Assistant m]) w1)
      as [[m2|e] w2] eqn:E; [|discriminate].
    intros H. destruct (call_tools_extends _ _ _ E) as [t1 ->].
    destruct (IH _ _ _ _ H) as [t2 ->].
    exists ([Assistant m] ++ t1 ++ t2). rewrite <- !app_assoc. reflexivity.
Qed.

(** X16.
    The invocations of a response are handled one after the other, and a
    failure of one leaves the ones after it unhandled: handling [a ++ b]
    is handling [a] and then, if that returned, [b]. *)
Theorem call_tools_app (a b : list tool_call) :
  forall (messages : list message) (w : world),
    call_tools (a ++ b) messages w
    = (messages' <- call_tools a messages ;; call_tools b messages') w.
Proof.
  induction a as [|tc a IH]; intros messages w; [reflexivity|].
  cbn [app call_tools]. unfold bind.
  destruct (call_tool tc messages w) as [[m1|e] w1]; [|reflexivity].
  rewrite IH. reflexivity.
Qed.

(** X17.
    A shell invocation whose arguments are not JSON, or are JSON without a
    [command], fails with the error of the parse or of the lookup before
    anything is printed or written to the child, and the invocations after
    it in the response are not handled. *)
Theorem call_tool_bad_arguments (tc : tool_call) (messages : list message)
    (w : world) (e : exn) :
  fn_name tc = TOOL_NAME ->
  and_then (json_loads (fn_arguments tc))
    (fun args => getitem args (lit "command")) = Raise e ->
  call_tool tc messages w = (Raise e, w)
  /\ forall rest, call_tools (tc :: rest) messages w = (Raise e, w).
Proof.
  intros N H.
  assert (Q : call_tool tc messages w = (Raise e, w)).
  { unfold call_tool. rewrite N, str_eqb_refl. unfold_monad.
    destruct (json_loads (fn_arguments tc)) as [args|e1]; simpl in H;
      [|congruence].
    rewrite H. reflexivity. }
  split; [exact Q|]. intros rest. cbn [call_tools]. unfold bind.
  rewrite Q. reflexivity.
Qed.


Lemma call_tool_exec_raises (w : world) (c : child) (tc : tool_call)
    (messages : list message) (args command : pyval) (line : pystr)
    (rest : list (exn + pystr)) (e : exn) :
  fn_name tc = TOOL_NAME ->
  json_loads (fn_arguments tc) = Ret args ->
  getitem args (lit "command") = Ret command ->
  process (vm w) = Some c ->
  takes_write c = true ->
  stdout c = inr line :: rest ->
  line <> [] ->
  reply_outcome line = Raise e ->
  call_tool tc messages w =
    (Raise e,
     after_exchange (exec_request command ++ [NL]) c rest
       (logged (PrintErr (lit "[Tool] Executing: " ++ py_str command)) w)).
Proof.
  intros Hn Ha Hc P W O L R. unfold call_tool.
  rewrite Hn, str_eqb_refl. unfold_monad. rewrite Ha, Hc.
  rewrite exec_exchange with (c := c) (line := line) (rest := rest);
    [|exact P|exact W|exact O|exact L].
  rewrite R. reflexivity.
Qed.

(** X19.
    An error of the bridge exchange ends the loop at once, unlike a
    command that merely exits with a non-zero code: when the response to a
    shell invocation makes [exec] raise (an [error] status, a malformed
    line), the loop raises the same error after one endpoint call and one
    request to the child; no tool message is appended, the other
    invocations of the reply are not handled, and the endpoint is not
    called again. *)
Theorem bridge_error_ends_loop (budget : nat) (w : world) (c : child)
    (messages : list message) (r : completion) (m : chat_message)
    (others : list chat_message) (ep : list (exn + completion))
    (tc : tool_call) (tcs : list tool_call) (args command : pyval)
    (line : pystr) (rest : list (exn + pystr)) (e : exn) :
  endpoint w = inr r :: ep ->
  choices r = m :: others ->
  tool_calls m = Some (tc :: tcs) ->
  fn_name tc = TOOL_NAME ->
  json_loads (fn_arguments tc) = Ret args ->
  getitem args (lit "command") = Ret command ->
  process (vm w) = Some c ->
  takes_write c = true ->
  stdout c = inr line :: rest ->
  line <> [] ->
  reply_outcome line = Raise e ->
  agent_steps (S budget) messages w =
    (Raise e,
     after_exchange (exec_request command ++ [NL]) c rest
       (logged (PrintErr (lit "[Tool] Executing: " ++ py_str command))
          (with_endpoint ep (logged (Create messages) w)))).
Proof.
  intros E C T Hn Ha Hc P W O L R. cbn [agent_steps]. unfold bind at 1.
  rewrite create_next with (r := r) (rest := ep) by exact E.
  rewrite C, T. cbn [call_tools]. unfold bind at 1. unfold bind at 1.
  rewrite call_tool_exec_raises
    with (c := c) (args := args) (command := command) (line := line)
         (rest := rest) (e := e);
    [reflexivity|exact Hn|exact Ha|exact Hc|exact P|exact W|exact O|exact L
    |exact R].
Qed.

Lemma takes_writes_next (n : nat) (c : child) :
  takes_writes (S n) c = true ->
  takes_write c = true
  /\ forall out,
       takes_writes n
         {| stdout := out; stdin := tl (stdin c); exits := exits c |} = true.
Proof.
  unfold takes_writes, takes_write. destruct c as [o [|[e|] i] x];
    cbn [stdin firstn forallb tl]; intros H; try discriminate.
  - split; [reflexivity|]. intros out. destruct n; reflexivity.
  - split; [reflexivity|]. intros out. exact H.
Qed.


End LoopEdges.

Section ReadyTest.

Lemma lstrip_split (s : pystr) :
  exists ws, s = ws ++ lstrip s /\ forallb is_space ws = true.
Proof.
  induction s as [|c t IH]; cbn [lstrip].
  - exists []. split; reflexivity.
  - destruct (is_space c) eqn:E.
    + destruct IH as (ws & H1 & H2). exists (c :: ws). split.
      * cbn [app]. f_equal. exact H1.
      * cbn [forallb]. rewrite E, H2. reflexivity.
    + exists []. split; reflexivity.
Qed.

Lemma lstrip_spaces (ws s : pystr) :
  forallb is_space ws = true -> lstrip (ws ++ s) = lstrip s.
Proof.
  induction ws as [|c ws IH]; cbn [forallb app lstrip]; intros H;
    [reflexivity|].
  apply andb_true_iff in H. destruct H as [H1 H2]. rewrite H1. apply IH, H2.
Qed.

Lemma forallb_rev (A : Type) (f : A -> bool) (l : list A) :
  forallb f (rev l) = forallb f l.
Proof.
  induction l as [|x l IH]; [reflexivity|].
  cbn [rev forallb]. rewrite forallb_app, IH. cbn [forallb].
  rewrite andb_true_r. apply andb_comm.
Qed.

(** X4.
    The test [line.strip() == "READY"] of [start] holds of exactly the
    lines that are [READY] with white space before and after it (a newline,
    a carriage return and a newline, indentation). *)
Theorem ready_line_characterised (line : pystr) :
  str_eqb (strip line) (lit "READY") = true <->
  exists ws ws',
    line = ws ++ lit "READY" ++ ws'
    /\ forallb is_space ws = true /\ forallb is_space ws' = true.
Proof.
  split.
  - intros H. apply str_eqb_eq in H. unfold strip in H.
    destruct (lstrip_split line) as (ws & L1 & L2).
    destruct (lstrip_split (rev (lstrip line))) as (ws2 & R1 & R2).
    exists ws, (rev ws2). split; [|split].
    + rewrite L1 at 1. f_equal.
      rewrite <- (rev_involutive (lstrip line)), R1, rev_app_distr, H.
      reflexivity.
    + exact L2.
    + rewrite forallb_rev. exact R2.
  - intros (ws & ws' & -> & H1 & H2). apply str_eqb_eq. unfold strip.
    rewrite lstrip_spaces by exact H1.
    replace (lstrip (lit "READY" ++ ws')) with (lit "READY" ++ ws')
      by reflexivity.
    rewrite rev_app_distr, lstrip_spaces
      by (rewrite forallb_rev; exact H2).
    reflexivity.
Qed.

End ReadyTest.

Section Frame.
Context {B : Builtins}.
Variable X : Type.
Variable g : world -> X.
Hypothesis g_logged : forall e w, g (logged e w) = g w.
Hypothesis g_vm : forall c w, g (with_vm c w) = g w.
Hypothesis g_endpoint : forall l w, g (with_endpoint l w) = g w.

Lemma g_process (p : option child) (w : world) : g (with_process p w) = g w.
Proof. apply g_vm. Qed.

Lemma keeps_pure (A : Type) (m : M A) :
  (forall w, snd (m w) = w) -> keeps g m.
Proof. intros H w. rewrite H. reflexivity. Qed.

Lemma keeps_emit (e : event) : keeps g (emit e).
Proof. intros w. apply g_logged. Qed.

Lemma keeps_print_stdout (t : pystr) : keeps g (print_stdout t).
Proof.
  intros w. unfold print_stdout. destruct (encodable t);
    [apply g_logged|reflexivity].
Qed.

Lemma keeps_set_process (p : option child) : keeps g (set_process p).
Proof. intros w. apply g_process. Qed.

Lemma keeps_init : keeps g init.
Proof. intros w. apply g_vm. Qed.

Lemma keeps_readline : keeps g readline.
Proof.
  intros w. unfold readline. destruct (process (vm w)) as [c|]; [|reflexivity].
  destruct (stdout c) as [|[e|line] rest]; [reflexivity| |]; apply g_process.
Qed.

Lemma keeps_write (text : pystr) : keeps g (write text).
Proof.
  intros w. unfold write. destruct (process (vm w)) as [c|]; [|reflexivity].
  destruct (stdin c) as [|[e|] rest]; cbn [snd];
    rewrite g_logged, ?g_process; reflexivity.
Qed.

Lemma keeps_wait : keeps g wait.
Proof.
  intros w. unfold wait. destruct (process (vm w)) as [c|]; [|reflexivity].
  destruct (exits c); apply g_logged.
Qed.

Lemma keeps_kill : keeps g kill.
Proof.
  intros w. unfold kill. destruct (process (vm w)); [apply g_logged|reflexivity].
Qed.

Lemma keeps_create (messages : list message) : keeps g (create messages).
Proof.
  intros w. unfold create. cbn [endpoint logged].
  destruct (endpoint w) as [|[e|c] rest]; cbn [snd];
    rewrite ?g_endpoint, g_logged; reflexivity.
Qed.

Lemma moves_bind (A C : Type) (f : X -> X) (m : M A) (k : A -> M C) :
  moves g f m -> (forall a, keeps g (k a)) -> moves g f (bind m k).
Proof.
  intros Hm Hk w. unfold bind. specialize (Hm w).
  destruct (m w) as [[a|e] w1]; [|exact Hm].
  rewrite (Hk a w1). exact Hm.
Qed.

Lemma moves_try (A : Type) (f : X -> X) (m : M A) (h : exn -> M A) :
  moves g f m -> (forall e, keeps g (h e)) -> moves g f (try_except m h).
Proof.
  intros Hm Hh w. unfold try_except. specialize (Hm w).
  destruct (m w) as [[a|e] w1]; [exact Hm|].
  destruct (is_Exception e); [|exact Hm].
  rewrite (Hh e w1). exact Hm.
Qed.

Lemma moves_try_all (A : Type) (f : X -> X) (m h : M A) :
  moves g f m -> keeps g h -> moves g f (try_except_all m h).
Proof.
  intros Hm Hh w. unfold try_except_all. specialize (Hm w).
  destruct (m w) as [[a|e] w1]; [exact Hm|].
  rewrite (Hh w1). exact Hm.
Qed.

Lemma moves_finally (A : Type) (f : X -> X) (m : M A) (fin : M unit) :
  moves g f m -> keeps g fin -> moves g f (finally m fin).
Proof.
  intros Hm Hf w. unfold finally. specialize (Hm w). specialize (Hf (snd (m w))).
  destruct (m w) as [r w1]. cbn [snd] in *.
  destruct (fin w1) as [[u|e] w2]; cbn [snd] in *; congruence.
Qed.

Lemma keeps_wait_ready (fuel : nat) : keeps g (wait_ready fuel).
Proof.
  induction fuel as [|fuel IH]; cbn [wait_ready].
  - apply keeps_pure. reflexivity.
  - apply moves_bind; [apply keeps_readline|].
    intros [|x line]; [apply keeps_pure; reflexivity|].
    destruct (str_eqb _ _); [apply keeps_pure; reflexivity|exact IH].
Qed.

Lemma keeps_exec (command : pyval) : keeps g (exec command).
Proof.
  unfold exec. apply moves_bind; [apply keeps_pure; reflexivity|].
  intros me. destruct (process me); [|apply keeps_pure; reflexivity].
  apply moves_bind; [apply keeps_write|intros _].
  apply moves_bind; [apply keeps_readline|].
  intros [|x line]; [apply keeps_pure; reflexivity|].
  apply moves_bind; [apply keeps_pure; reflexivity|intros resp].
  apply moves_bind; [apply keeps_pure; reflexivity|intros status].
  destruct (eq_str status (lit "ok")); [apply keeps_pure; reflexivity|].
  apply moves_bind; [apply keeps_pure; reflexivity|intros err].
  apply keeps_pure. reflexivity.
Qed.

Lemma keeps_stop : keeps g stop.
Proof.
  unfold stop. apply moves_bind; [apply keeps_pure; reflexivity|].
  intros me. destruct (process me); [|apply keeps_pure; reflexivity].
  apply moves_bind; [|intros _; apply keeps_set_process].
  apply moves_try_all; [|apply keeps_kill].
  apply moves_bind; [apply keeps_write|intros _; apply keeps_wait].
Qed.

Lemma keeps_call_tool (tc : tool_call) (messages : list message) :
  keeps g (call_tool tc messages).
Proof.
  unfold call_tool.
  destruct (str_eqb (fn_name tc) TOOL_NAME); [|apply keeps_pure; reflexivity].
  apply moves_bind; [apply keeps_pure; reflexivity|intros args].
  apply moves_bind; [apply keeps_pure; reflexivity|intros command].
  apply moves_bind; [apply keeps_emit|intros _].
  apply moves_bind; [apply keeps_exec|intros res].
  apply moves_bind; [apply keeps_pure; reflexivity|intros body].
  apply keeps_pure. reflexivity.
Qed.

Lemma keeps_call_tools (tcs : list tool_call) (messages : list message) :
  keeps g (call_tools tcs messages).
Proof.
  revert messages. induction tcs as [|tc tcs IH]; intros messages;
    cbn [call_tools]; [apply keeps_pure; reflexivity|].
  apply moves_bind; [apply keeps_call_tool|exact IH].
Qed.

Lemma keeps_agent_steps (budget : nat) (messages : list message) :
  keeps g (agent_steps budget messages).
Proof.
  revert messages. induction budget as [|budget IH]; intros messages;
    cbn [agent_steps]; [apply keeps_pure; reflexivity|].
  apply moves_bind; [apply keeps_create|intros r].
  destruct (choices r) as [|m others]; [apply keeps_pure; reflexivity|].
  assert (Q : keeps g
                (emit (Print (NL :: lit "Agent Response:")) ;;
                 print_stdout match content m with
                              | Some text => text
                              | None => lit "None"
                              end ;;
                 ret (messages ++ [Assistant m]))).
  { apply moves_bind; [apply keeps_emit|intros _].
    apply moves_bind; [apply keeps_print_stdout|intros _].
    apply keeps_pure. reflexivity. }
  destruct (tool_calls m) as [[|tc tcs]|]; try exact Q.
  apply moves_bind; [apply keeps_call_tools|intros messages'; apply IH].
Qed.

Lemma keeps_simulated : keeps g simulated.
Proof.
  unfold simulated.
  apply moves_bind; [apply keeps_emit|intros _].
  apply moves_bind; [apply keeps_emit|intros _].
  apply moves_bind; [apply keeps_exec|intros res]. apply keeps_emit.
Qed.

(** What [run_agent] does to [g] is what [spawn] does to it. *)
Lemma moves_run_agent (f : X -> X) :
  (forall argv, moves g f (spawn argv)) -> moves g f run_agent.
Proof.
  intros Hs.
  assert (S : moves g f start).
  { unfold start. intros w. unfold bind at 1. unfold emit.
    unfold bind at 1. unfold self.
    rewrite <- (g_logged (PrintErr (lit "Booting VM...")) w).
    apply moves_bind; [apply Hs|intros p].
    apply moves_bind; [apply keeps_set_process|intros _].
    apply moves_bind; [apply keeps_wait_ready|intros _]. apply keeps_emit. }
  assert (A : moves g f attempt).
  { unfold attempt. apply moves_bind; [exact S|intros _].
    apply moves_bind; [apply keeps_pure; reflexivity|intros key].
    assert (Q : keeps g simulated) by apply keeps_simulated.
    destruct key as [[|k key]|]; try exact Q.
    apply moves_bind; [apply keeps_agent_steps|intros _].
    apply keeps_pure. reflexivity. }
  intros w. unfold run_agent. unfold bind. cbn [init].
  rewrite <- (g_vm {| bridge_path := path_join (script_dir w)
                                       (lit "agent_bridge.js");
                      process := None |} w).
  apply moves_finally; [|apply keeps_stop].
  apply moves_try; [exact A|intros e; apply keeps_emit].
Qed.

End Frame.

Section OneChild.
Context {B : Builtins}.

Lemma spawn_children (argv : list pystr) : moves children (@tl _) (spawn argv).
Proof.
  intros w. unfold spawn. cbn [children logged].
  destruct (children w) as [|[e|c] rest] eqn:E; cbn; rewrite ?E; reflexivity.
Qed.

Lemma spawn_keeps (X : Type) (g : world -> X) :
  (forall e w, g (logged e w) = g w) ->
  (forall l w, g (with_children l w) = g w) ->
  forall argv, moves g (fun x => x) (spawn argv).
Proof.
  intros Hl Hc argv w. unfold spawn.
  destruct (children (logged (Popen argv) w)) as [|[e|c] rest]; cbn [snd];
    rewrite ?Hc, Hl; reflexivity.
Qed.


End OneChild.

Section Examples.
#[local] Existing Instance plain_builtins.

Ltac by_computation := vm_compute; first [reflexivity | discriminate].

(** C1: the counterexample.  On the line
    [{"status":"error","error":"boom"}] the message [exec] raises with is
    [VM Error: boom], not the bare [error] member [boom]. *)
Lemma exec_boom_message_prefixed :
  fst (exec (VStr (lit "ls -F")) (running (sample_child [BOOM_LINE])))
    = Raise (RuntimeError (lit "VM Error: boom"))
  /\ fst (exec (VStr (lit "ls -F")) (running (sample_child [BOOM_LINE])))
    <> Raise (RuntimeError (lit "boom")).
Proof. split; by_computation. Qed.

Lemma exec_reply_witness :
  fst (exec (VStr (lit "ls -F")) (running (sample_child [OK_LINE])))
    = Ret RESULT_A
  /\ fst (exec (VStr (lit "ls -F")) (running (sample_child [BOOM_LINE])))
    = Raise (RuntimeError (lit "VM Error: boom")).
Proof.
  split.
  - eapply (proj1 (@exec_reply _ (running (sample_child [OK_LINE]))
                     (sample_child [OK_LINE]) (VStr (lit "ls -F")) OK_LINE []
                     [(lit "status", VStr (lit "ok")); (lit "result", RESULT_A)]
                     eq_refl eq_refl eq_refl _ _)).
    + reflexivity.
    + reflexivity.
  - eapply (proj2 (@exec_reply _ (running (sample_child [BOOM_LINE]))
                     (sample_child [BOOM_LINE]) (VStr (lit "ls -F")) BOOM_LINE []
                     [(lit "status", VStr (lit "error"));
                      (lit "error", VStr (lit "boom"))]
                     eq_refl eq_refl eq_refl _ _)
                  (VStr (lit "error"))).
    + reflexivity.
    + reflexivity.
  Unshelve.
  all: by_computation.
Defined.


Lemma exec_malformed_line_witness :
  exec (VStr (lit "ls -F")) (running (sample_child [GARBLED_LINE; OK_LINE]))
  = (Raise JSONDecodeError,
     after_exchange LS_LINE (sample_child [GARBLED_LINE; OK_LINE])
       [inr OK_LINE] (running (sample_child [GARBLED_LINE; OK_LINE]))).
Proof.
  apply (proj1 (proj2 (@exec_malformed_line _))
           (running (sample_child [GARBLED_LINE; OK_LINE]))
           (sample_child [GARBLED_LINE; OK_LINE]) (VStr (lit "ls -F"))
           GARBLED_LINE [inr OK_LINE]);
    by_computation.
Defined.

Lemma tool_message_content_witness :
  fst (call_tool (shell_call "call_1" "false") []
         (running (sample_child [EXIT2_LINE])))
    = Ret [Tool (lit "call_1") TOOL_NAME (VStr (lit "Error (Exit 2): err"))]
  /\ fst (call_tool (shell_call "call_2" "false") []
            (running (sample_child [EXIT2_QUIET_LINE])))
    = Ret [Tool (lit "call_2") TOOL_NAME (VStr (lit "Error (Exit 2): out"))].
Proof.
  split.
  - erewrite (@tool_message_content _ (shell_call "call_1" "false") []
                (running (sample_child [EXIT2_LINE])) _
                (VDict [(lit "command", VStr (lit "false"))])
                (VStr (lit "false")) _ 2 (lit "out") (lit "err")).
    + reflexivity.
    + reflexivity.
    + by_computation.
    + reflexivity.
    + by_computation.
    + reflexivity.
    + reflexivity.
    + reflexivity.
  - erewrite (@tool_message_content _ (shell_call "call_2" "false") []
                (running (sample_child [EXIT2_QUIET_LINE])) _
                (VDict [(lit "command", VStr (lit "false"))])
                (VStr (lit "false")) _ 2 (lit "out") []).
    + reflexivity.
    + reflexivity.
    + by_computation.
    + reflexivity.
    + by_computation.
    + reflexivity.
    + reflexivity.
    + reflexivity.
Defined.

Lemma other_tool_skipped_witness :
  call_tool other_call [User PROMPT] (running (sample_child [OK_LINE]))
    = (Ret [User PROMPT], running (sample_child [OK_LINE]))
  /\ call_tools [other_call; shell_call "call_1" "true"] [User PROMPT]
       (running (sample_child [OK_LINE]))
     = call_tools [shell_call "call_1" "true"] [User PROMPT]
         (running (sample_child [OK_LINE])).
Proof.
  assert (H : fn_name other_call <> TOOL_NAME) by by_computation.
  split.
  - exact (proj1 (@other_tool_skipped _ other_call [User PROMPT]
                    (running (sample_child [OK_LINE])) H)).
  - exact (proj2 (@other_tool_skipped _ other_call [User PROMPT]
                    (running (sample_child [OK_LINE])) H)
             [] [shell_call "call_1" "true"]).
Defined.



(** C4: the counterexample.  The command made of the two code points
    U+D83D and U+DE00 is written as the escapes of a surrogate pair, which
    [json.loads] reads back as the one character U+1F600. *)
Lemma surrogate_pair_not_restored :
  is_str [55357%N; 56832%N]
  /\ json_loads (exec_request (VStr [55357%N; 56832%N]) ++ [NL])
     = Ret (VDict [(lit "cmd", VStr (lit "exec"));
                   (lit "command", VStr [128512%N])])
  /\ json_loads (exec_request (VStr [55357%N; 56832%N]) ++ [NL])
     <> Ret (VDict [(lit "cmd", VStr (lit "exec"));
                    (lit "command", VStr [55357%N; 56832%N])]).
Proof.
  split; [repeat constructor|]. split; by_computation.
Qed.

Lemma request_line_round_trip_witness :
  json_loads (exec_request (VStr (NL :: QUOTE :: BACKSLASH :: 233%N
                                  :: 128512%N :: 55357%N :: lit "ls -F"))
              ++ [NL])
  = Ret (VDict [(lit "cmd", VStr (lit "exec"));
                (lit "command",
                 VStr (NL :: QUOTE :: BACKSLASH :: 233%N :: 128512%N
                       :: 55357%N :: lit "ls -F"))]).
Proof.
  apply (@request_line_round_trip _
           (NL :: QUOTE :: BACKSLASH :: 233%N :: 128512%N :: 55357%N
            :: lit "ls -F")).
  - repeat constructor.
  - reflexivity.
Defined.


Lemma start_fails_at_end_of_output_witness :
  fst (start silent_world) = Raise UNEXPECTED_EXIT
  /\ process (vm (snd (start silent_world))) = Some (read_to [] silent_child)
  /\ trace (snd (start silent_world)) =
       trace silent_world ++ boot_events silent_world.
Proof.
  apply (start_fails_at_end_of_output silent_world (cs := []) [BANNER_LINE]);
    by_computation.
Defined.

Lemma start_wait_terminates_witness :
  wait_ready 7 (running demo_child)
  = wait_ready (S (List.length (stdout demo_child))) (running demo_child)
  /\ (fst (wait_ready 7 (running demo_child)) = Raise RecursionError ->
      In (inl RecursionError) (stdout demo_child)).
Proof.
  apply (start_wait_terminates (running demo_child)); [reflexivity|].
  cbn. lia.
Defined.

Lemma exec_closed_connection_witness :
  exec (VStr (lit "ls -F")) (running (sample_child []))
  = (Raise (RuntimeError (lit "VM closed connection")),
     after_exchange (exec_request (VStr (lit "ls -F")) ++ [NL])
       (sample_child []) [] (running (sample_child []))).
Proof.
  apply (exec_closed_connection (running (sample_child []))
           (VStr (lit "ls -F"))); reflexivity.
Defined.

Lemma exec_write_refused_witness :
  exec (VStr (lit "ls -F")) (running deaf_child)
  = (Raise (OSError (lit "Broken pipe")),
     logged (Write (exec_request (VStr (lit "ls -F")) ++ [NL])
               (Some (OSError (lit "Broken pipe"))))
       (with_process
          (Some {| stdout := stdout deaf_child; stdin := [];
                   exits := exits deaf_child |})
          (running deaf_child))).
Proof.
  apply (exec_write_refused (running deaf_child) (VStr (lit "ls -F")));
    reflexivity.
Defined.

Lemma exec_blank_line_witness :
  exec (VStr (lit "ls -F")) (running (sample_child [[NL]; OK_LINE]))
  = (Raise JSONDecodeError,
     after_exchange (exec_request (VStr (lit "ls -F")) ++ [NL])
       (sample_child [[NL]; OK_LINE]) [inr OK_LINE]
       (running (sample_child [[NL]; OK_LINE]))).
Proof.
  apply (exec_blank_line (running (sample_child [[NL]; OK_LINE]))
           (VStr (lit "ls -F")) (line := [NL])); by_computation.
Defined.

Lemma exec_reply_not_an_object_witness :
  exec (VStr (lit "ls -F")) (running (sample_child [lit "[1, 2]" ++ [NL]]))
  = (Raise AttributeError,
     after_exchange (exec_request (VStr (lit "ls -F")) ++ [NL])
       (sample_child [lit "[1, 2]" ++ [NL]]) []
       (running (sample_child [lit "[1, 2]" ++ [NL]]))).
Proof.
  apply (exec_reply_not_an_object
           (running (sample_child [lit "[1, 2]" ++ [NL]]))
           (VStr (lit "ls -F")) (line := lit "[1, 2]" ++ [NL])
           (v := VList [VInt 1; VInt 2]));
    by_computation.
Defined.

Lemma exec_ok_without_result_witness :
  exec (VStr (lit "ls -F"))
    (running (sample_child [wire "{'status': 'ok'}" ++ [NL]]))
  = (Raise (KeyError (lit "result")),
     after_exchange (exec_request (VStr (lit "ls -F")) ++ [NL])
       (sample_child [wire "{'status': 'ok'}" ++ [NL]]) []
       (running (sample_child [wire "{'status': 'ok'}" ++ [NL]]))).
Proof.
  apply (exec_ok_without_result
           (running (sample_child [wire "{'status': 'ok'}" ++ [NL]]))
           (VStr (lit "ls -F")) (line := wire "{'status': 'ok'}" ++ [NL])
           (resp := [(lit "status", VStr (lit "ok"))]));
    by_computation.
Defined.





Lemma budget_spent_in_silence_witness :
  fst (agent_steps 5 [User PROMPT] insistent_world)
  = Ret (User PROMPT
         :: flat_map first_message
              [asks other_call; asks other_call; asks other_call;
               asks other_call; asks other_call])
  /\ count is_create (trace (snd (agent_steps 5 [User PROMPT] insistent_world)))
     = 5
  /\ endpoint (snd (agent_steps 5 [User PROMPT] insistent_world))
     = [inr (says "Never read.")].
Proof.
  destruct (@budget_spent_in_silence _
              [asks other_call; asks other_call; asks other_call;
               asks other_call; asks other_call]
              [User PROMPT] insistent_world [inr (says "Never read.")]
              eq_refl eq_refl) as (H1 & H2 & H3 & H4 & _).
  split; [exact H1|]. split; [|exact H4].
  cbn [List.length] in H2. rewrite H2. exact H3.
Defined.

Lemma conversation_append_only_witness :
  exists tail,
    [User PROMPT;
     Assistant {| content := None; tool_calls := Some [other_call] |}]
    = [User PROMPT] ++ tail.
Proof.
  apply (@conversation_append_only _ 1 [User PROMPT]
           [User PROMPT;
            Assistant {| content := None; tool_calls := Some [other_call] |}]
           insistent_world
           (snd (agent_steps 1 [User PROMPT] insistent_world))).
  by_computation.
Defined.

Lemma call_tool_bad_arguments_witness :
  call_tool bad_call [User PROMPT] (running demo_child)
  = (Raise (KeyError (lit "command")), running demo_child)
  /\ forall rest,
       call_tools (bad_call :: rest) [User PROMPT] (running demo_child)
       = (Raise (KeyError (lit "command")), running demo_child).
Proof.
  apply (call_tool_bad_arguments bad_call [User PROMPT] (running demo_child));
    by_computation.
Defined.


Lemma bridge_error_ends_loop_witness :
  agent_steps 5 [User PROMPT] failing_world
  = (Raise (RuntimeError (lit "VM Error: boom")),
     after_exchange (exec_request (VStr (lit "make")) ++ [NL])
       (sample_child [BOOM_LINE; OK_LINE]) [inr OK_LINE]
       (logged (PrintErr (lit "[Tool] Executing: " ++ py_str (VStr (lit "make"))))
          (with_endpoint [inr (says "Never read.")]
             (logged (Create [User PROMPT]) failing_world)))).
Proof.
  apply (@bridge_error_ends_loop _ 4 failing_world
           (sample_child [BOOM_LINE; OK_LINE]) [User PROMPT]
           {| choices :=
                [{| content := None;
                    tool_calls := Some [shell_call "call_1" "make";
                                        shell_call "call_2" "make test"] |}] |}
           {| content := None;
              tool_calls := Some [shell_call "call_1" "make";
                                  shell_call "call_2" "make test"] |}
           [] [inr (says "Never read.")]
           (shell_call "call_1" "make") [shell_call "call_2" "make test"]
           (VDict [(lit "command", VStr (lit "make"))]) (VStr (lit "make"))
           BOOM_LINE [inr OK_LINE] (RuntimeError (lit "VM Error: boom")));
    by_computation.
Defined.


End Examples.
